(** * PolyNodes OSC server: validation, address routing and dispatch

    A shallow embedding of [src/server.py].  The server exposes one tool per
    PolyNodes parameter; a tool call validates its arguments (pydantic field
    constraints and [field_validator]s), resolves a wire address and hands one
    [(address, value)] pair to a UDP client that is created on first use.

    Conventions of the embedding:
    - Python [float] is IEEE binary64: Rocq's primitive [float], compared with
      [PrimFloat.leb] and [PrimFloat.ltb].  A decimal literal denotes the
      nearest binary64 value, in Python as here.
    - Python [str] is restricted to code points below 256, one [ascii] per
      code point; [lower] and [strip] are Python's on that range.
    - the module-level variable [_osc_client] and the datagrams handed to the
      UDP socket form the explicit state [Process]; a tool is a computation
      in a state-and-exception monad [Py].
    - [json.dumps] is kept symbolic: the returned text is represented by the
      value that is serialised and the [indent] argument.
    - the UDP client is the library's: [send_message] hands one datagram to
      the socket and returns; a failing socket is outside this model. *)

From Stdlib Require Import Floats ZArith NArith String Ascii List Bool DecimalString Lia.
Import ListNotations.

Set Warnings "-inexact-float,-register-all".

Local Open Scope string_scope.
Local Open Scope list_scope.

(** ** Strings *)

Module Str.

(** [str.isspace] on one code point below 256: TAB..CR, FS..US, SPACE, NEL
    and NBSP. *)
Definition isspace (c : ascii) : bool :=
  let n := N_of_ascii c in
  (((9 <=? n) && (n <=? 13)) || ((28 <=? n) && (n <=? 32)) || (n =? 133) || (n =? 160))%N.

(** The Unicode [White_Space] property below 256, which is what pydantic's
    [str_strip_whitespace] trims: TAB..CR, SPACE, NEL and NBSP. *)
Definition is_White_Space (c : ascii) : bool :=
  let n := N_of_ascii c in
  (((9 <=? n) && (n <=? 13)) || (n =? 32) || (n =? 133) || (n =? 160))%N.

(** [str.lower] on one code point below 256: A..Z and the Latin-1 capitals
    (U+00C0..U+00DE without the multiplication sign U+00D7) move up by 32. *)
Definition char_lower (c : ascii) : ascii :=
  let n := N_of_ascii c in
  if (((65 <=? n) && (n <=? 90)) || ((192 <=? n) && (n <=? 222) && negb (n =? 215)))%N
  then ascii_of_N (n + 32) else c.

Fixpoint lower (s : string) : string :=
  match s with
  | EmptyString => EmptyString
  | String c r => String (char_lower c) (lower r)
  end.

Fixpoint lstrip_by (ws : ascii -> bool) (s : string) : string :=
  match s with
  | EmptyString => EmptyString
  | String c r => if ws c then lstrip_by ws r else s
  end.

Fixpoint rstrip_by (ws : ascii -> bool) (s : string) : string :=
  match s with
  | EmptyString => EmptyString
  | String c r =>
      match rstrip_by ws r with
      | EmptyString => if ws c then EmptyString else String c EmptyString
      | r' => String c r'
      end
  end.

Definition strip_by (ws : ascii -> bool) (s : string) : string :=
  rstrip_by ws (lstrip_by ws s).

(** [s.strip()] *)
Definition strip : string -> string := strip_by isspace.

(** The trimming pydantic applies to a [str] field of a model whose
    [model_config] sets [str_strip_whitespace]. *)
Definition pydantic_strip : string -> string := strip_by is_White_Space.

(** [x in (a, b, c)]: membership in a tuple of strings, by [==]. *)
Definition tuple_in (x : string) (t : list string) : bool :=
  existsb (String.eqb x) t.

End Str.

(** ** JSON values and the text [json.dumps] returns *)

Inductive Json : Type :=
| JString (s : string)
| JNumber (x : float)
| JObject (members : list (string * Json)).

(** [json.dumps(obj, indent=...)], symbolically. *)
Inductive JsonText : Type :=
| dumps (obj : Json) (indent : option Z).

(** ** Dictionaries with string keys, in insertion order *)

Definition dict (V : Type) : Type := list (string * V).

Fixpoint dict_get {V : Type} (d : dict V) (k : string) : option V :=
  match d with
  | [] => None
  | (k', v) :: r => if String.eqb k k' then Some v else dict_get r k
  end.

(** [k in d] *)
Definition dict_contains {V : Type} (d : dict V) (k : string) : bool :=
  match dict_get d k with Some _ => true | None => false end.

(** ** Process state, exceptions, and the monad of tool bodies *)

(** [udp_client.SimpleUDPClient(address, port)]: the destination the client
    sends every message to. *)
Record SimpleUDPClient : Type := {
  _address : string;
  _port : Z
}.

(** One OSC message handed to the UDP socket. *)
Record Datagram : Type := {
  dest_host : string;
  dest_port : Z;
  osc_address : string;
  osc_value : float
}.

(** The module-level [_osc_client] and the datagrams sent so far, oldest
    first. *)
Record Process : Type := {
  _osc_client : option SimpleUDPClient;
  wire : list Datagram
}.

(** One entry of a pydantic [ValidationError]: the error type, the field it
    is about, and what the constraint and the input were. *)
Inductive ErrorDetails : Type :=
| value_error (loc : string) (msg : string) (input : string)
| greater_than_equal (loc : string) (ge : float) (input : float)
| less_than_equal (loc : string) (le : float) (input : float)
| int_greater_than_equal (loc : string) (ge : Z) (input : Z)
| int_less_than_equal (loc : string) (le : Z) (input : Z).

Inductive Exception : Type :=
| ValidationError (errors : list ErrorDetails)
| KeyError (key : string).

Inductive Outcome (A : Type) : Type :=
| Return (a : A)
| Raise (e : Exception).
Arguments Return {A} a.
Arguments Raise {A} e.

Definition Py (A : Type) : Type := Process -> Outcome A * Process.

Definition ret {A : Type} (a : A) : Py A := fun w => (Return a, w).

Definition raise {A : Type} (e : Exception) : Py A := fun w => (Raise e, w).

Definition bind {A B : Type} (m : Py A) (k : A -> Py B) : Py B :=
  fun w =>
    match m w with
    | (Return a, w') => k a w'
    | (Raise e, w') => (Raise e, w')
    end.

Declare Scope py_scope.
Delimit Scope py_scope with py.
Notation "x <- m ;; k" := (bind m (fun x => k))
  (at level 61, m at next level, right associativity) : py_scope.
Notation "m ;;; k" := (bind m (fun _ => k))
  (at level 61, right associativity) : py_scope.
Local Open Scope py_scope.

(** [d[k]]: raises [KeyError] when the key is absent. *)
Definition getitem {V : Type} (d : dict V) (k : string) : Py V :=
  match dict_get d k with
  | Some v => ret v
  | None => raise (KeyError k)
  end.

(** ** Server and OSC client setup *)

Definition DEFAULT_HOST : string := "127.0.0.1".
Definition DEFAULT_PORT : Z := 4799.

(** Module load: [_osc_client = None], nothing sent. *)
Definition initial : Process := {| _osc_client := None; wire := [] |}.

Definition _get_client (host : string) (port : Z) : Py SimpleUDPClient :=
  fun w =>
    match _osc_client w with
    | None =>
        let c := {| _address := host; _port := port |} in
        (Return c, {| _osc_client := Some c; wire := wire w |})
    | Some c => (Return c, w)
    end.

(** [client.send_message(address, value)]: one datagram to the client's
    destination. *)
Definition send_message (client : SimpleUDPClient) (address : string) (value : float)
  : Py unit :=
  fun w =>
    (Return tt,
     {| _osc_client := _osc_client w;
        wire := wire w ++ [{| dest_host := _address client;
                              dest_port := _port client;
                              osc_address := address;
                              osc_value := value |}] |}).

Definition sent (address : string) (value : float) : JsonText :=
  dumps (JObject [("status", JString "sent");
                  ("address", JString address);
                  ("value", JNumber value)]) None.

Definition _send_osc (address : string) (value : float) : Py JsonText :=
  client <- _get_client DEFAULT_HOST DEFAULT_PORT ;;
  send_message client address value ;;;
  ret (sent address value).

(** ** pydantic: field constraints and model validation *)

(** [Field(..., ge=..., le=...)] on a [float] field; [None] where the
    keyword is not given. *)
Record FloatField : Type := {
  ge : option float;
  le : option float
}.

(** [Field(..., ge=..., le=...)] on an [int] field. *)
Record IntField : Type := {
  int_ge : option Z;
  int_le : option Z
}.

(** The upper bound is checked first, then the lower bound; the first
    violated constraint is the field's error.  A comparison with NaN is
    false, so NaN meets no bound. *)
Definition validate_float (loc : string) (f : FloatField) (v : float)
  : list ErrorDetails :=
  match le f with
  | Some hi =>
      if (v <=? hi)%float then
        match ge f with
        | Some lo => if (lo <=? v)%float then [] else [greater_than_equal loc lo v]
        | None => []
        end
      else [less_than_equal loc hi v]
  | None =>
      match ge f with
      | Some lo => if (lo <=? v)%float then [] else [greater_than_equal loc lo v]
      | None => []
      end
  end.

Definition validate_int (loc : string) (f : IntField) (v : Z)
  : list ErrorDetails :=
  match int_le f with
  | Some hi =>
      if (v <=? hi)%Z then
        match int_ge f with
        | Some lo => if (lo <=? v)%Z then [] else [int_greater_than_equal loc lo v]
        | None => []
        end
      else [int_less_than_equal loc hi v]
  | None =>
      match int_ge f with
      | Some lo => if (lo <=? v)%Z then [] else [int_greater_than_equal loc lo v]
      | None => []
      end
  end.

(** What a [field_validator] does with a string: return the value to store,
    or raise [ValueError(msg)]. *)
Inductive Validated : Type :=
| Valid (v : string)
| ValueError (msg : string).

(** A [BaseModel] subclass of the server: its [model_config], its [str]
    field (name and [field_validator]) when it has one, and its [float]
    field (name and constraints). *)
Record BaseModel : Type := {
  str_strip_whitespace : bool;
  str_field : option (string * (string -> Validated));
  float_field : string * FloatField
}.

(** A validated model instance.  [str_value] is the [str] field ([level] or
    [param]; empty for a model without one), [float_value] the [float] field
    ([value], [state] or [slot]). *)
Record Instance : Type := {
  str_value : string;
  float_value : float
}.

Abbreviation level := str_value (only parsing).
Abbreviation param := str_value (only parsing).
Abbreviation value := float_value (only parsing).
Abbreviation state := float_value (only parsing).
Abbreviation slot := float_value (only parsing).

(** Field by field, in declaration order ([str] field first); the errors of
    all fields are collected. *)
Definition validate_str (M : BaseModel) (s : string) : string * list ErrorDetails :=
  match str_field M with
  | None => ("", [])
  | Some (name, validator) =>
      let s := if str_strip_whitespace M then Str.pydantic_strip s else s in
      match validator s with
      | Valid v => (v, [])
      | ValueError msg => (s, [value_error name msg s])
      end
  end.

Definition model_validate (M : BaseModel) (s : string) (x : float)
  : Instance + list ErrorDetails :=
  let '(v, errs) := validate_str M s in
  match errs ++ validate_float (fst (float_field M)) (snd (float_field M)) x with
  | [] => inl {| str_value := v; float_value := x |}
  | errors => inr errors
  end.

(** ** Input models *)

(** The [validate_level] class method, written out identically in every
    model with a [level] field. *)
Definition validate_level (v : string) : Validated :=
  let v := Str.strip (Str.lower v) in
  if negb (Str.tuple_in v ["macro"; "meso"; "micro"]) then
    ValueError "level must be 'macro', 'meso', or 'micro'"
  else Valid v.

(** [IsomorphModInput.validate_param]. *)
Definition validate_param (v : string) : Validated :=
  let v := Str.strip (Str.lower v) in
  if negb (Str.tuple_in v ["freq"; "amp"; "res"]) then
    ValueError "param must be 'freq', 'amp', or 'res'"
  else Valid v.

(** Input for play/stop control. *)
Definition PlayStopInput : BaseModel := {|
  str_strip_whitespace := true;
  str_field := None;
  float_field := ("state", {| ge := Some 0.0%float; le := Some 1.0%float |})
|}.

(** Input for preset selection. *)
Definition PresetSlotInput : BaseModel := {|
  str_strip_whitespace := true;
  str_field := None;
  float_field := ("slot", {| ge := Some 1.0%float; le := Some 10.0%float |})
|}.

(** Input for gain/volume controls. *)
Definition GainInput : BaseModel := {|
  str_strip_whitespace := true;
  str_field := Some ("level", validate_level);
  float_field := ("value", {| ge := Some (-80.0)%float; le := Some 20.0%float |})
|}.

(** Input for dry/wet balance. *)
Definition DryWetInput : BaseModel := {|
  str_strip_whitespace := true;
  str_field := None;
  float_field := ("value", {| ge := Some 0.0%float; le := Some 1.0%float |})
|}.

(** Input for envelope time. *)
Definition EnvelopeTimeInput : BaseModel := {|
  str_strip_whitespace := true;
  str_field := Some ("level", validate_level);
  float_field := ("value", {| ge := Some 0.01%float; le := Some 0.5%float |})
|}.

(** Input for playback rate. *)
Definition PlaybackRateInput : BaseModel := {|
  str_strip_whitespace := true;
  str_field := Some ("level", validate_level);
  float_field := ("value", {| ge := None; le := None |})
|}.

(** Input for playback rate modulation range. *)
Definition PlaybackRateMRInput : BaseModel := {|
  str_strip_whitespace := true;
  str_field := Some ("level", validate_level);
  float_field := ("value", {| ge := Some 0.0%float; le := Some 0.75%float |})
|}.

(** Generic on/off switch input. *)
Definition SwitchInput : BaseModel := {|
  str_strip_whitespace := true;
  str_field := None;
  float_field := ("state", {| ge := Some 0.0%float; le := Some 1.0%float |})
|}.

(** Input for granular duration. *)
Definition GranularDurationInput : BaseModel := {|
  str_strip_whitespace := true;
  str_field := None;
  float_field := ("value", {| ge := Some 10.0%float; le := Some 1000.0%float |})
|}.

(** Input for granular duration modulation range. *)
Definition GranularDurationMRInput : BaseModel := {|
  str_strip_whitespace := true;
  str_field := None;
  float_field := ("value", {| ge := Some 0.0%float; le := Some 0.75%float |})
|}.

(** Input for bandpass filter frequency. *)
Definition FilterInput : BaseModel := {|
  str_strip_whitespace := true;
  str_field := Some ("level", validate_level);
  float_field := ("value", {| ge := Some 80.0%float; le := Some 8000.0%float |})
|}.

(** Input for bandpass filter modulation range. *)
Definition FilterMRInput : BaseModel := {|
  str_strip_whitespace := true;
  str_field := Some ("level", validate_level);
  float_field := ("value", {| ge := Some 0.0%float; le := Some 0.75%float |})
|}.

(** Input for filter on/off per level. *)
Definition FilterSwitchInput : BaseModel := {|
  str_strip_whitespace := true;
  str_field := Some ("level", validate_level);
  float_field := ("state", {| ge := Some 0.0%float; le := Some 1.0%float |})
|}.

(** Input for comb filter delay. *)
Definition CombInput : BaseModel := {|
  str_strip_whitespace := true;
  str_field := Some ("level", validate_level);
  float_field := ("value", {| ge := None; le := None |})
|}.

(** Input for comb filter modulation range. *)
Definition CombMRInput : BaseModel := {|
  str_strip_whitespace := true;
  str_field := Some ("level", validate_level);
  float_field := ("value", {| ge := Some 0.0%float; le := Some 0.75%float |})
|}.

(** Input for comb filter on/off per level. *)
Definition CombSwitchInput : BaseModel := {|
  str_strip_whitespace := true;
  str_field := Some ("level", validate_level);
  float_field := ("state", {| ge := Some 0.0%float; le := Some 1.0%float |})
|}.

(** Input for DSP interactable force (BH / WH). *)
Definition ForceInput : BaseModel := {|
  str_strip_whitespace := true;
  str_field := Some ("level", validate_level);
  float_field := ("value", {| ge := Some 0.0%float; le := Some 1.0%float |})
|}.

(** Input for ring modulator frequency. *)
Definition RingModInput : BaseModel := {|
  str_strip_whitespace := true;
  str_field := Some ("level", validate_level);
  float_field := ("value", {| ge := Some 1.0%float; le := Some 3.0%float |})
|}.

(** Input for cuboid FX return level. *)
Definition CubeReturnInput : BaseModel := {|
  str_strip_whitespace := true;
  str_field := Some ("level", validate_level);
  float_field := ("value", {| ge := Some 1.0%float; le := Some 80.0%float |})
|}.

(** Input for gain solo. *)
Definition GainSoloInput : BaseModel := {|
  str_strip_whitespace := true;
  str_field := Some ("level", validate_level);
  float_field := ("state", {| ge := Some 0.0%float; le := Some 1.0%float |})
|}.

(** Input for bitcrusher bit level. *)
Definition CrushBitInput : BaseModel := {|
  str_strip_whitespace := true;
  str_field := None;
  float_field := ("value", {| ge := Some 0.0%float; le := Some 1.0%float |})
|}.

(** Input for bitcrusher range. *)
Definition CrushRangeInput : BaseModel := {|
  str_strip_whitespace := true;
  str_field := None;
  float_field := ("value", {| ge := Some 0.0%float; le := Some 5.0%float |})
|}.

(** Input for resonator frequency distribution. *)
Definition ResonatorFreqDistInput : BaseModel := {|
  str_strip_whitespace := true;
  str_field := None;
  float_field := ("value", {| ge := Some 1.0%float; le := Some 3.0%float |})
|}.

(** Input for resonator balance. *)
Definition ResonatorBalanceInput : BaseModel := {|
  str_strip_whitespace := true;
  str_field := None;
  float_field := ("value", {| ge := Some 0.0%float; le := Some 0.5%float |})
|}.

(** Input for isomorphic modulation depth. *)
Definition IsomorphModInput : BaseModel := {|
  str_strip_whitespace := true;
  str_field := Some ("param", validate_param);
  float_field := ("value", {| ge := Some 0.0%float; le := Some 2.0%float |})
|}.

(** Input for isomorphic bandpass center. *)
Definition IsomorphBPCenterInput : BaseModel := {|
  str_strip_whitespace := true;
  str_field := None;
  float_field := ("value", {| ge := Some 0.0%float; le := Some 5000.0%float |})
|}.

(** Input for camera zoom. *)
Definition CameraZoomInput : BaseModel := {|
  str_strip_whitespace := true;
  str_field := None;
  float_field := ("value", {| ge := None; le := None |})
|}.

(** Input for camera rotation. *)
Definition CameraRotateInput : BaseModel := {|
  str_strip_whitespace := true;
  str_field := None;
  float_field := ("value", {| ge := None; le := None |})
|}.

(** Input for BPM. *)
Definition BPMInput : BaseModel := {|
  str_strip_whitespace := true;
  str_field := None;
  float_field := ("value", {| ge := Some 10.0%float; le := Some 300.0%float |})
|}.


(** ** Tools *)

(** [str(n)] for an [int], as an f-string formats it. *)
Definition str_int (n : Z) : string := NilZero.string_of_int (Z.to_int n).

(** The value [json.dumps] serialises for a dictionary of dictionaries of
    strings. *)
Definition json_of_addresses (d : dict (dict string)) : Json :=
  JObject (map (fun '(category, entries) =>
                  (category, JObject (map (fun '(address, text) => (address, JString text))
                                          entries)))
               d).

(** Start or stop PolyNodes playback. *)
Definition polynodes_play_stop (params : Instance) : Py JsonText :=
  _send_osc "/polynodes/playstartstop" (state params).

(** Select a preset slot (1-10) on PolyNodes. *)
Definition polynodes_preset_slot (params : Instance) : Py JsonText :=
  _send_osc "/polynodes/presetslot" (slot params).

(** Set gain for a macro/meso/micro layer (-80 to 20 dB). *)
Definition polynodes_set_gain (params : Instance) : Py JsonText :=
  let addr_map : dict string :=
    [("macro", "/polynodes/MacroGain");
     ("meso", "/polynodes/MesoGain");
     ("micro", "/polynodes/MicroGain")] in
  address <- getitem addr_map (level params) ;;
  _send_osc address (value params).

(** Set the dry/wet balance (0.0=dry original, 1.0=wet synthesis). *)
Definition polynodes_set_dry_wet (params : Instance) : Py JsonText :=
  _send_osc "/polynodes/DryWet" (value params).

(** Solo a specific layer (macro/meso/micro). *)
Definition polynodes_gain_solo (params : Instance) : Py JsonText :=
  let addr_map : dict string :=
    [("macro", "/polynodes/MacroGainsolo");
     ("meso", "/polynodes/MesoGainsolo");
     ("micro", "/polynodes/MicroGainsolo")] in
  address <- getitem addr_map (level params) ;;
  _send_osc address (state params).

(** Set attack/decay envelope time for macro/meso/micro agents (0.01-0.5). *)
Definition polynodes_set_envelope_time (params : Instance) : Py JsonText :=
  let addr_map : dict string :=
    [("macro", "/polynodes/MacroEnvtime");
     ("meso", "/polynodes/MesoEnvtime");
     ("micro", "/polynodes/MicroEnvtime")] in
  address <- getitem addr_map (level params) ;;
  _send_osc address (value params).

(** Set playback rate for agents. Macro: 0.3-10, Meso: 0.3-20, Micro: 0.3-30. *)
Definition polynodes_set_playback_rate (params : Instance) : Py JsonText :=
  let addr_map : dict string :=
    [("macro", "/polynodes/pbrmacro");
     ("meso", "/polynodes/pbrmeso");
     ("micro", "/polynodes/pbrmicro")] in
  address <- getitem addr_map (level params) ;;
  _send_osc address (value params).

(** Set the stochastic modulation range for playback rate (0.0-0.75). *)
Definition polynodes_set_playback_rate_mod_range (params : Instance) : Py JsonText :=
  let addr_map : dict string :=
    [("macro", "/polynodes/pbrmacroMR");
     ("meso", "/polynodes/pbrmesoMR");
     ("micro", "/polynodes/pbrmicroMR")] in
  address <- getitem addr_map (level params) ;;
  _send_osc address (value params).

(** Turn the granulator on or off. *)
Definition polynodes_granular_switch (params : Instance) : Py JsonText :=
  _send_osc "/polynodes/granusw" (state params).

(** Set granular chunk duration (10-1000). *)
Definition polynodes_granular_duration (params : Instance) : Py JsonText :=
  _send_osc "/polynodes/granuDur" (value params).

(** Set granular duration modulation range (0.0-0.75). *)
Definition polynodes_granular_duration_mod_range (params : Instance) : Py JsonText :=
  _send_osc "/polynodes/granuDurMR" (value params).

(** Turn bandpass filter on/off for a layer. *)
Definition polynodes_filter_switch (params : Instance) : Py JsonText :=
  let addr_map : dict string :=
    [("macro", "/polynodes/filtmacrosw");
     ("meso", "/polynodes/filtmesosw");
     ("micro", "/polynodes/filtmicrosw")] in
  address <- getitem addr_map (level params) ;;
  _send_osc address (state params).

(** Set bandpass filter center frequency (80-8000 Hz). *)
Definition polynodes_set_filter_freq (params : Instance) : Py JsonText :=
  let addr_map : dict string :=
    [("macro", "/polynodes/filtmacro");
     ("meso", "/polynodes/filtmeso");
     ("micro", "/polynodes/filtmicro")] in
  address <- getitem addr_map (level params) ;;
  _send_osc address (value params).

(** Set bandpass filter modulation range (0.0-0.75). *)
Definition polynodes_set_filter_mod_range (params : Instance) : Py JsonText :=
  let addr_map : dict string :=
    [("macro", "/polynodes/filtmacroMR");
     ("meso", "/polynodes/filtmesoMR");
     ("micro", "/polynodes/filtmicroMR")] in
  address <- getitem addr_map (level params) ;;
  _send_osc address (value params).

(** Turn comb filter on/off for a layer. *)
Definition polynodes_comb_switch (params : Instance) : Py JsonText :=
  let addr_map : dict string :=
    [("macro", "/polynodes/combmacrosw");
     ("meso", "/polynodes/combmesosw");
     ("micro", "/polynodes/combmicrosw")] in
  address <- getitem addr_map (level params) ;;
  _send_osc address (state params).

(** Set comb filter delay. Macro: 10-3000, Meso: 10-1000, Micro: 10-300. *)
Definition polynodes_set_comb_delay (params : Instance) : Py JsonText :=
  let addr_map : dict string :=
    [("macro", "/polynodes/combmacro");
     ("meso", "/polynodes/combmeso");
     ("micro", "/polynodes/combmicro")] in
  address <- getitem addr_map (level params) ;;
  _send_osc address (value params).

(** Set comb filter modulation range (0.0-0.75). *)
Definition polynodes_set_comb_mod_range (params : Instance) : Py JsonText :=
  let addr_map : dict string :=
    [("macro", "/polynodes/combmacroMR");
     ("meso", "/polynodes/combmesoMR");
     ("micro", "/polynodes/combmicroMR")] in
  address <- getitem addr_map (level params) ;;
  _send_osc address (value params).

(** Turn the Black Hole DSP interactable on or off. *)
Definition polynodes_blackhole_switch (params : Instance) : Py JsonText :=
  _send_osc "/polynodes/BHsw" (state params).

(** Set Black Hole gravitational force per layer (0.0-1.0). *)
Definition polynodes_blackhole_force (params : Instance) : Py JsonText :=
  let addr_map : dict string :=
    [("macro", "/polynodes/BHmacroforce");
     ("meso", "/polynodes/BHmesoforce");
     ("micro", "/polynodes/BHmicroforce")] in
  address <- getitem addr_map (level params) ;;
  _send_osc address (value params).

(** Turn the White Hole DSP interactable on or off. *)
Definition polynodes_whitehole_switch (params : Instance) : Py JsonText :=
  _send_osc "/polynodes/WHsw" (state params).

(** Set White Hole reflection force per layer (0.0-1.0). *)
Definition polynodes_whitehole_force (params : Instance) : Py JsonText :=
  let addr_map : dict string :=
    [("macro", "/polynodes/WHmacroforce");
     ("meso", "/polynodes/WHmesoforce");
     ("micro", "/polynodes/WHmicroforce")] in
  address <- getitem addr_map (level params) ;;
  _send_osc address (value params).

(** Turn Ring Modulator on or off. *)
Definition polynodes_ringmod_switch (params : Instance) : Py JsonText :=
  _send_osc "/polynodes/RMsw" (state params).

(** Set ring modulator center frequency per layer (1.0-3.0). *)
Definition polynodes_ringmod_freq (params : Instance) : Py JsonText :=
  let addr_map : dict string :=
    [("macro", "/polynodes/RMmacro");
     ("meso", "/polynodes/RMmeso");
     ("micro", "/polynodes/RMmicro")] in
  address <- getitem addr_map (level params) ;;
  _send_osc address (value params).

(** Turn Bitcrusher/Decimater on or off. *)
Definition polynodes_crush_switch (params : Instance) : Py JsonText :=
  _send_osc "/polynodes/CRSsw" (state params).

(** Set bitcrusher bit depth level (0.0-1.0). *)
Definition polynodes_crush_bit_level (params : Instance) : Py JsonText :=
  _send_osc "/polynodes/CRSbitLvl" (value params).

(** Set bitcrusher sampling frequency range (0.0-5.0). *)
Definition polynodes_crush_range (params : Instance) : Py JsonText :=
  _send_osc "/polynodes/CRSrange" (value params).

(** Turn Resonator on or off. *)
Definition polynodes_resonator_switch (params : Instance) : Py JsonText :=
  _send_osc "/polynodes/ResoSw" (state params).

(** Set resonator frequency distribution (1.0-3.0). *)
Definition polynodes_resonator_freq_dist (params : Instance) : Py JsonText :=
  _send_osc "/polynodes/ResoFreqdist" (value params).

(** Set resonator wet/dry balance (0.0-0.5). *)
Definition polynodes_resonator_balance (params : Instance) : Py JsonText :=
  _send_osc "/polynodes/ResoBalance" (value params).

(** Turn a cuboid (C1/C2/C3) on or off. *)
Definition polynodes_cuboid_switch (cube : Z) (state : float) : Py JsonText :=
  _send_osc ("/polynodes/C" ++ str_int cube ++ "sw") state.

(** Set cuboid FX return level per layer (1.0-80.0). *)
Definition polynodes_cuboid_return_level (params : Instance) : Py JsonText :=
  let addr_map : dict string :=
    [("macro", "/polynodes/MacroreturnLvl");
     ("meso", "/polynodes/MesoreturnLvl");
     ("micro", "/polynodes/MicroreturnLvl")] in
  address <- getitem addr_map (level params) ;;
  _send_osc address (value params).

(** Turn IsoMorph modulation on or off. *)
Definition polynodes_isomorph_switch (params : Instance) : Py JsonText :=
  _send_osc "/polynodes/isomorphsw" (state params).

(** Turn on/off a specific isomorphic modulation target (freq/amp/res). *)
Definition polynodes_isomorph_mod_switch (param : string) (state : float) : Py JsonText :=
  let addr_map : dict string :=
    [("freq", "/polynodes/isomfreqsw");
     ("amp", "/polynodes/isomampsw");
     ("res", "/polynodes/isomressw")] in
  let param := Str.strip (Str.lower param) in
  if negb (dict_contains addr_map param) then
    ret (dumps (JObject [("error", JString "param must be 'freq', 'amp', or 'res'")]) None)
  else
    address <- getitem addr_map param ;;
    _send_osc address state.

(** Set isomorphic modulation depth for freq/amp/res (0.0-2.0). *)
Definition polynodes_isomorph_mod_depth (params : Instance) : Py JsonText :=
  let addr_map : dict string :=
    [("freq", "/polynodes/isomfreqmodr");
     ("amp", "/polynodes/isomampmodr");
     ("res", "/polynodes/isomresmodr")] in
  address <- getitem addr_map (param params) ;;
  _send_osc address (value params).

(** Set isomorphic bandpass center frequency (0-5000). *)
Definition polynodes_isomorph_bp_center (params : Instance) : Py JsonText :=
  _send_osc "/polynodes/isombpcent" (value params).

(** Trigger random navigation mode changes. *)
Definition polynodes_navigation_random_trigger (params : Instance) : Py JsonText :=
  _send_osc "/polynodes/navigrndtrig" (state params).

(** Trigger Re-Arr mode (rearranges input sample chunks). *)
Definition polynodes_rearrange_trigger (params : Instance) : Py JsonText :=
  _send_osc "/polynodes/rearrtrig" (state params).

(** Turn Poly Gates on or off (BPM-synced layer gating). *)
Definition polynodes_poly_gates_switch (params : Instance) : Py JsonText :=
  _send_osc "/polynodes/polygatessw" (state params).

(** Turn tuning scale application on PB rate on or off. *)
Definition polynodes_tuning_pb_switch (params : Instance) : Py JsonText :=
  _send_osc "/polynodes/tuningpbsw" (state params).

(** Turn tuning scale application on resonator filter on or off. *)
Definition polynodes_tuning_res_switch (params : Instance) : Py JsonText :=
  _send_osc "/polynodes/tuningressw" (state params).

(** Zoom the 3D camera (positive=in, negative=out). *)
Definition polynodes_camera_zoom (params : Instance) : Py JsonText :=
  _send_osc "/polynodes/camzoom" (value params).

(** Rotate the 3D camera (value in radians). *)
Definition polynodes_camera_rotate (params : Instance) : Py JsonText :=
  _send_osc "/polynodes/camrotate" (value params).

(** Set the sequencer BPM (10-300). *)
Definition polynodes_set_bpm (params : Instance) : Py JsonText :=
  _send_osc "/polynodes/seqbpm" (value params).

(** List all available PolyNodes OSC addresses and their parameter ranges. *)
Definition polynodes_list_osc_addresses : Py JsonText :=
  let addresses : dict (dict string) :=
   [("transport",
      [("/polynodes/playstartstop", "Play/Stop (0.0 or 1.0)");
       ("/polynodes/presetslot", "Preset Slot (1-10)");
       ("/polynodes/seqbpm", "BPM (10-300)")]);
    ("gain",
      [("/polynodes/MacroGain", "Macro Gain dB (-80 to 20)");
       ("/polynodes/MesoGain", "Meso Gain dB (-80 to 20)");
       ("/polynodes/MicroGain", "Micro Gain dB (-80 to 20)");
       ("/polynodes/DryWet", "Dry/Wet (0.0-1.0)");
       ("/polynodes/MacroGainsolo", "Macro Solo (0/1)");
       ("/polynodes/MesoGainsolo", "Meso Solo (0/1)");
       ("/polynodes/MicroGainsolo", "Micro Solo (0/1)")]);
    ("envelope",
      [("/polynodes/MacroEnvtime", "Macro Env Time (0.01-0.5)");
       ("/polynodes/MesoEnvtime", "Meso Env Time (0.01-0.5)");
       ("/polynodes/MicroEnvtime", "Micro Env Time (0.01-0.5)")]);
    ("playback_rate",
      [("/polynodes/pbrmacro", "Macro PBR (0.3-10)");
       ("/polynodes/pbrmeso", "Meso PBR (0.3-20)");
       ("/polynodes/pbrmicro", "Micro PBR (0.3-30)");
       ("/polynodes/pbrmacroMR", "Macro PBR ModRange (0-0.75)");
       ("/polynodes/pbrmesoMR", "Meso PBR ModRange (0-0.75)");
       ("/polynodes/pbrmicroMR", "Micro PBR ModRange (0-0.75)")]);
    ("granulator",
      [("/polynodes/granusw", "Granulator Switch (0/1)");
       ("/polynodes/granuDur", "Duration (10-1000)");
       ("/polynodes/granuDurMR", "Duration ModRange (0-0.75)")]);
    ("bandpass_filter",
      [("/polynodes/filtmacrosw", "Macro Filter Switch (0/1)");
       ("/polynodes/filtmesosw", "Meso Filter Switch (0/1)");
       ("/polynodes/filtmicrosw", "Micro Filter Switch (0/1)");
       ("/polynodes/filtmacro", "Macro Freq (80-8000)");
       ("/polynodes/filtmeso", "Meso Freq (80-8000)");
       ("/polynodes/filtmicro", "Micro Freq (80-8000)");
       ("/polynodes/filtmacroMR", "Macro Filter ModRange (0-0.75)");
       ("/polynodes/filtmesoMR", "Meso Filter ModRange (0-0.75)");
       ("/polynodes/filtmicroMR", "Micro Filter ModRange (0-0.75)")]);
    ("comb_filter",
      [("/polynodes/combmacrosw", "Macro Comb Switch (0/1)");
       ("/polynodes/combmesosw", "Meso Comb Switch (0/1)");
       ("/polynodes/combmicrosw", "Micro Comb Switch (0/1)");
       ("/polynodes/combmacro", "Macro Comb (10-3000)");
       ("/polynodes/combmeso", "Meso Comb (10-1000)");
       ("/polynodes/combmicro", "Micro Comb (10-300)");
       ("/polynodes/combmacroMR", "Macro Comb ModRange (0-0.75)");
       ("/polynodes/combmesoMR", "Meso Comb ModRange (0-0.75)");
       ("/polynodes/combmicroMR", "Micro Comb ModRange (0-0.75)")]);
    ("blackhole",
      [("/polynodes/BHsw", "BH Switch (0/1)");
       ("/polynodes/BHmacroforce", "BH Macro Force (0-1)");
       ("/polynodes/BHmesoforce", "BH Meso Force (0-1)");
       ("/polynodes/BHmicroforce", "BH Micro Force (0-1)")]);
    ("whitehole",
      [("/polynodes/WHsw", "WH Switch (0/1)");
       ("/polynodes/WHmacroforce", "WH Macro Force (0-1)");
       ("/polynodes/WHmesoforce", "WH Meso Force (0-1)");
       ("/polynodes/WHmicroforce", "WH Micro Force (0-1)")]);
    ("ring_modulator",
      [("/polynodes/RMsw", "RM Switch (0/1)");
       ("/polynodes/RMmacro", "RM Macro (1-3)");
       ("/polynodes/RMmeso", "RM Meso (1-3)");
       ("/polynodes/RMmicro", "RM Micro (1-3)")]);
    ("bitcrusher",
      [("/polynodes/CRSsw", "Crush Switch (0/1)");
       ("/polynodes/CRSbitLvl", "Bit Level (0-1)");
       ("/polynodes/CRSrange", "Range (0-5)")]);
    ("resonator",
      [("/polynodes/ResoSw", "Resonator Switch (0/1)");
       ("/polynodes/ResoFreqdist", "Freq Distribution (1-3)");
       ("/polynodes/ResoBalance", "Balance (0-0.5)")]);
    ("cuboid_fx",
      [("/polynodes/C1sw", "Cuboid 1 Switch (0/1)");
       ("/polynodes/C2sw", "Cuboid 2 Switch (0/1)");
       ("/polynodes/C3sw", "Cuboid 3 Switch (0/1)");
       ("/polynodes/MacroreturnLvl", "Macro Return (1-80)");
       ("/polynodes/MesoreturnLvl", "Meso Return (1-80)");
       ("/polynodes/MicroreturnLvl", "Micro Return (1-80)")]);
    ("isomorph",
      [("/polynodes/isomorphsw", "IsoMorph Switch (0/1)");
       ("/polynodes/isomfreqsw", "Freq Mod Switch (0/1)");
       ("/polynodes/isomfreqmodr", "Freq Mod Depth (0-2)");
       ("/polynodes/isomampsw", "Amp Mod Switch (0/1)");
       ("/polynodes/isomampmodr", "Amp Mod Depth (0-2)");
       ("/polynodes/isomressw", "Res Mod Switch (0/1)");
       ("/polynodes/isomresmodr", "Res Mod Depth (0-2)");
       ("/polynodes/isombpcent", "BP Center (0-5000)")]);
    ("navigation",
      [("/polynodes/navigrndtrig", "Nav Random Trigger (0/1)");
       ("/polynodes/rearrtrig", "Rearrange Trigger (0/1)");
       ("/polynodes/polygatessw", "Poly Gates Switch (0/1)")]);
    ("tuning",
      [("/polynodes/tuningpbsw", "Tuning PB Switch (0/1)");
       ("/polynodes/tuningressw", "Tuning Res Switch (0/1)")]);
    ("camera",
      [("/polynodes/camzoom", "Camera Zoom (+/- float)");
       ("/polynodes/camrotate", "Camera Rotate (radians)")])] in
  ret (dumps (json_of_addresses addresses) (Some 2%Z)).

(** Send a raw OSC message to PolyNodes. Use this for any OSC address. *)
Definition polynodes_send_raw_osc (address : string) (value : float) : Py JsonText :=
  _send_osc address value.

(** ** Tool registration and dispatch *)

(** The tools registered with [@mcp.tool], by name without the
    [polynodes_] prefix. *)
Inductive Tool : Type :=
| play_stop
| preset_slot
| set_gain
| set_dry_wet
| gain_solo
| set_envelope_time
| set_playback_rate
| set_playback_rate_mod_range
| granular_switch
| granular_duration
| granular_duration_mod_range
| filter_switch
| set_filter_freq
| set_filter_mod_range
| comb_switch
| set_comb_delay
| set_comb_mod_range
| blackhole_switch
| blackhole_force
| whitehole_switch
| whitehole_force
| ringmod_switch
| ringmod_freq
| crush_switch
| crush_bit_level
| crush_range
| resonator_switch
| resonator_freq_dist
| resonator_balance
| cuboid_switch
| cuboid_return_level
| isomorph_switch
| isomorph_mod_switch
| isomorph_mod_depth
| isomorph_bp_center
| navigation_random_trigger
| rearrange_trigger
| poly_gates_switch
| tuning_pb_switch
| tuning_res_switch
| camera_zoom
| camera_rotate
| set_bpm
| list_osc_addresses
| send_raw_osc.

(** A registered function with the argument model its signature declares:
    a [params] model; an [int] and a [float] argument; a [str] and a [float]
    argument; or no argument. *)
Inductive ToolDef : Type :=
| takes_params (M : BaseModel) (f : Instance -> Py JsonText)
| takes_int_float (i : string * IntField) (x : string * FloatField)
    (f : Z -> float -> Py JsonText)
| takes_str_float (s : string) (x : string * FloatField)
    (f : string -> float -> Py JsonText)
| takes_nothing (f : Py JsonText).

Definition registry (t : Tool) : ToolDef :=
  match t with
  | play_stop => takes_params PlayStopInput polynodes_play_stop
  | preset_slot => takes_params PresetSlotInput polynodes_preset_slot
  | set_gain => takes_params GainInput polynodes_set_gain
  | set_dry_wet => takes_params DryWetInput polynodes_set_dry_wet
  | gain_solo => takes_params GainSoloInput polynodes_gain_solo
  | set_envelope_time => takes_params EnvelopeTimeInput polynodes_set_envelope_time
  | set_playback_rate => takes_params PlaybackRateInput polynodes_set_playback_rate
  | set_playback_rate_mod_range => takes_params PlaybackRateMRInput polynodes_set_playback_rate_mod_range
  | granular_switch => takes_params SwitchInput polynodes_granular_switch
  | granular_duration => takes_params GranularDurationInput polynodes_granular_duration
  | granular_duration_mod_range => takes_params GranularDurationMRInput polynodes_granular_duration_mod_range
  | filter_switch => takes_params FilterSwitchInput polynodes_filter_switch
  | set_filter_freq => takes_params FilterInput polynodes_set_filter_freq
  | set_filter_mod_range => takes_params FilterMRInput polynodes_set_filter_mod_range
  | comb_switch => takes_params CombSwitchInput polynodes_comb_switch
  | set_comb_delay => takes_params CombInput polynodes_set_comb_delay
  | set_comb_mod_range => takes_params CombMRInput polynodes_set_comb_mod_range
  | blackhole_switch => takes_params SwitchInput polynodes_blackhole_switch
  | blackhole_force => takes_params ForceInput polynodes_blackhole_force
  | whitehole_switch => takes_params SwitchInput polynodes_whitehole_switch
  | whitehole_force => takes_params ForceInput polynodes_whitehole_force
  | ringmod_switch => takes_params SwitchInput polynodes_ringmod_switch
  | ringmod_freq => takes_params RingModInput polynodes_ringmod_freq
  | crush_switch => takes_params SwitchInput polynodes_crush_switch
  | crush_bit_level => takes_params CrushBitInput polynodes_crush_bit_level
  | crush_range => takes_params CrushRangeInput polynodes_crush_range
  | resonator_switch => takes_params SwitchInput polynodes_resonator_switch
  | resonator_freq_dist => takes_params ResonatorFreqDistInput polynodes_resonator_freq_dist
  | resonator_balance => takes_params ResonatorBalanceInput polynodes_resonator_balance
  | cuboid_switch => takes_int_float ("cube", {| int_ge := Some 1%Z; int_le := Some 3%Z |})
      ("state", {| ge := Some 0.0%float; le := Some 1.0%float |}) polynodes_cuboid_switch
  | cuboid_return_level => takes_params CubeReturnInput polynodes_cuboid_return_level
  | isomorph_switch => takes_params SwitchInput polynodes_isomorph_switch
  | isomorph_mod_switch => takes_str_float "param"
      ("state", {| ge := Some 0.0%float; le := Some 1.0%float |}) polynodes_isomorph_mod_switch
  | isomorph_mod_depth => takes_params IsomorphModInput polynodes_isomorph_mod_depth
  | isomorph_bp_center => takes_params IsomorphBPCenterInput polynodes_isomorph_bp_center
  | navigation_random_trigger => takes_params SwitchInput polynodes_navigation_random_trigger
  | rearrange_trigger => takes_params SwitchInput polynodes_rearrange_trigger
  | poly_gates_switch => takes_params SwitchInput polynodes_poly_gates_switch
  | tuning_pb_switch => takes_params SwitchInput polynodes_tuning_pb_switch
  | tuning_res_switch => takes_params SwitchInput polynodes_tuning_res_switch
  | camera_zoom => takes_params CameraZoomInput polynodes_camera_zoom
  | camera_rotate => takes_params CameraRotateInput polynodes_camera_rotate
  | set_bpm => takes_params BPMInput polynodes_set_bpm
  | list_osc_addresses => takes_nothing polynodes_list_osc_addresses
  | send_raw_osc => takes_str_float "address" ("value", {| ge := None; le := None |})
      polynodes_send_raw_osc
  end.

(** The arguments of a call, by type: the string argument ([level], [param]
    or [address]), the integer argument ([cube]), the float argument
    ([value], [state] or [slot]).  A tool reads those its signature names. *)
Record Arguments : Type := {
  arg_str : string;
  arg_int : Z;
  arg_float : float
}.

(** A tool call: the arguments are validated against the signature, and
    only then does the function run; a validation failure raises
    [ValidationError] and the function is not entered. *)
Definition call (d : ToolDef) (a : Arguments) : Py JsonText :=
  match d with
  | takes_params M f =>
      match model_validate M (arg_str a) (arg_float a) with
      | inl params => f params
      | inr errors => raise (ValidationError errors)
      end
  | takes_int_float (iname, ifield) (xname, xfield) f =>
      match validate_int iname ifield (arg_int a)
            ++ validate_float xname xfield (arg_float a) with
      | [] => f (arg_int a) (arg_float a)
      | errors => raise (ValidationError errors)
      end
  | takes_str_float _ (xname, xfield) f =>
      match validate_float xname xfield (arg_float a) with
      | [] => f (arg_str a) (arg_float a)
      | errors => raise (ValidationError errors)
      end
  | takes_nothing f => f
  end.

Definition call_tool (t : Tool) (a : Arguments) : Py JsonText :=
  call (registry t) a.

(** ** The spec's vocabulary *)

Module Spec.

(** The error kinds of the spec (section 7) that validation produces. *)
Inductive ErrorKind : Type := InvalidScope | OutOfRange.

(** The enumerated scope sets of the data model (section 3): the layers
    {macro, meso, micro}, the isomorphic-modulation targets {freq, amp, res}
    and the cuboid indices {1, 2, 3}. *)
Inductive ScopeSet : Type := Levels | Targets | Cubes.

Inductive Key : Type :=
| key_str (s : string)
| key_int (n : Z).

Definition keys (sc : ScopeSet) : list Key :=
  match sc with
  | Levels => [key_str "macro"; key_str "meso"; key_str "micro"]
  | Targets => [key_str "freq"; key_str "amp"; key_str "res"]
  | Cubes => [key_int 1; key_int 2; key_int 3]
  end.

(** Step 1 of the dispatcher: lower-case, then trim whitespace. *)
Definition normalize (s : string) : string := Str.strip (Str.lower s).

End Spec.
Import Spec.

(** How the server's errors read as the spec's kinds: the only
    [field_validator]s are the scope validators, so a [value_error] is an
    [InvalidScope]; a violated [ge] or [le] is an [OutOfRange]. *)
Definition kind (e : ErrorDetails) : ErrorKind :=
  match e with
  | value_error _ _ _ => InvalidScope
  | _ => OutOfRange
  end.

(** The call was rejected by validation with an error of kind [k], and the
    process is as it was before the call. *)
Definition rejected (k : ErrorKind) (w : Process) (r : Outcome JsonText * Process)
  : Prop :=
  exists errors,
    r = (Raise (ValidationError errors), w)
    /\ exists e, In e errors /\ kind e = k.

(** The call returned the acknowledgment for [(address, v)] and handed
    exactly one datagram, carrying [(address, v)], to the socket. *)
Definition forwarded (address : string) (v : float) (w : Process)
  (r : Outcome JsonText * Process) : Prop :=
  fst r = Return (sent address v)
  /\ exists d, wire (snd r) = wire w ++ [d]
               /\ osc_address d = address /\ osc_value d = v.

(** The numeric constraint a signature declares on its [float] argument. *)
Definition bounds (f : FloatField) : option (float * float) :=
  match ge f, le f with
  | Some lo, Some hi => Some (lo, hi)
  | _, _ => None
  end.

Definition float_constraint (t : Tool) : option (float * float) :=
  match registry t with
  | takes_params M _ => bounds (snd (float_field M))
  | takes_int_float _ (_, f) _ => bounds f
  | takes_str_float _ (_, f) _ => bounds f
  | takes_nothing _ => None
  end.

Definition int_constraint (t : Tool) : option (Z * Z) :=
  match registry t with
  | takes_int_float (_, f) _ _ =>
      match int_ge f, int_le f with
      | Some lo, Some hi => Some (lo, hi)
      | _, _ => None
      end
  | _ => None
  end.

(** The scope parameter of a tool, by the name its signature gives it:
    [level], [param] or [cube]. *)
Definition scope_of_name (name : string) : option ScopeSet :=
  if String.eqb name "level" then Some Levels
  else if String.eqb name "param" then Some Targets
  else if String.eqb name "cube" then Some Cubes
  else None.

Definition scope_parameter (t : Tool) : option ScopeSet :=
  match registry t with
  | takes_params M _ =>
      match str_field M with
      | Some (name, _) => scope_of_name name
      | None => None
      end
  | takes_int_float (name, _) _ _ => scope_of_name name
  | takes_str_float name _ _ => scope_of_name name
  | takes_nothing _ => None
  end.

(** The scope key a call supplies, normalised when it is a string. *)
Definition key_of (sc : ScopeSet) (a : Arguments) : Key :=
  match sc with
  | Cubes => key_int (arg_int a)
  | _ => key_str (normalize (arg_str a))
  end.

Definition scope_valid (t : Tool) (a : Arguments) : Prop :=
  match scope_parameter t with
  | Some sc => In (key_of sc a) (keys sc)
  | None => True
  end.

Definition in_range (t : Tool) (x : float) : Prop :=
  match float_constraint t with
  | Some (lo, hi) => (lo <=? x)%float = true /\ (x <=? hi)%float = true
  | None => True
  end.

(** ** The address registry the tools implement *)

(** The registered function run on arguments as given, without validation. *)
Definition run_body (t : Tool) (a : Arguments) : Py JsonText :=
  match registry t with
  | takes_params _ f => f {| str_value := arg_str a; float_value := arg_float a |}
  | takes_int_float _ _ f => f (arg_int a) (arg_float a)
  | takes_str_float _ _ f => f (arg_str a) (arg_float a)
  | takes_nothing f => f
  end.

Definition arguments_of (k : Key) (x : float) : Arguments :=
  match k with
  | key_str s => {| arg_str := s; arg_int := 0; arg_float := x |}
  | key_int n => {| arg_str := ""; arg_int := n; arg_float := x |}
  end.

(** [resolve(operation, scope)]: the address the tool's function sends to
    for the scope key; a tool without scope parameter ignores the key. *)
Definition resolve (t : Tool) (k : Key) : option string :=
  match wire (snd (run_body t (arguments_of k 0%float) initial)) with
  | [d] => Some (osc_address d)
  | _ => None
  end.

(** A pair of the registry: a tool other than the raw send and the listing,
    with a key of its scope set, or with the empty key when it has no scope
    parameter. *)
Definition no_key : Key := key_str "".

Definition is_registry_tool (t : Tool) : bool :=
  match t with
  | send_raw_osc | list_osc_addresses => false
  | _ => true
  end.

Definition registry_pair (t : Tool) (k : Key) : Prop :=
  is_registry_tool t = true
  /\ match scope_parameter t with
     | Some sc => In k (keys sc)
     | None => k = no_key
     end.

Definition all_tools : list Tool :=
  [play_stop; preset_slot; set_gain; set_dry_wet; gain_solo;
   set_envelope_time; set_playback_rate; set_playback_rate_mod_range;
   granular_switch; granular_duration; granular_duration_mod_range;
   filter_switch; set_filter_freq; set_filter_mod_range; comb_switch;
   set_comb_delay; set_comb_mod_range; blackhole_switch; blackhole_force;
   whitehole_switch; whitehole_force; ringmod_switch; ringmod_freq;
   crush_switch; crush_bit_level; crush_range; resonator_switch;
   resonator_freq_dist; resonator_balance; cuboid_switch; cuboid_return_level;
   isomorph_switch; isomorph_mod_switch; isomorph_mod_depth;
   isomorph_bp_center; navigation_random_trigger; rearrange_trigger;
   poly_gates_switch; tuning_pb_switch; tuning_res_switch; camera_zoom;
   camera_rotate; set_bpm; list_osc_addresses; send_raw_osc].

Definition registry_pairs : list (Tool * Key) :=
  flat_map (fun t =>
              match scope_parameter t with
              | Some sc => map (pair t) (keys sc)
              | None => [(t, no_key)]
              end)
           (filter is_registry_tool all_tools).

(** The categories and addresses the listing returns. *)
Definition listed (j : JsonText) : list (string * list string) :=
  match j with
  | dumps (JObject categories) _ =>
      map (fun '(category, entries) =>
             (category,
              match entries with
              | JObject members => map fst members
              | _ => []
              end))
          categories
  | _ => []
  end.

Definition listed_addresses (j : JsonText) : list string :=
  flat_map snd (listed j).

(** ** What a call does to the process *)

(** The client [_send_osc] creates when there is none. *)
Definition default_client : SimpleUDPClient :=
  {| _address := DEFAULT_HOST; _port := DEFAULT_PORT |}.

(** The client in place after a send: the cached one, or the one
    [_send_osc] creates. *)
Definition client_after (w : Process) : SimpleUDPClient :=
  match _osc_client w with
  | Some c => c
  | None => default_client
  end.

Definition after_send (address : string) (v : float) (w : Process) : Process :=
  {| _osc_client := Some (client_after w);
     wire := wire w ++ [{| dest_host := _address (client_after w);
                           dest_port := _port (client_after w);
                           osc_address := address;
                           osc_value := v |}] |}.

(** A call either finishes without touching the process, or is one
    [_send_osc]. *)
Inductive Behaviour : Type :=
| Pure (r : Outcome JsonText)
| Send (address : string) (v : float).

Definition exec (b : Behaviour) : Py JsonText :=
  match b with
  | Pure r => fun w => (r, w)
  | Send address v => _send_osc address v
  end.

Definition behaves (m : Py JsonText) (b : Behaviour) : Prop :=
  forall w, m w = exec b w.

(** The scope key of a call, for the registry. *)
Definition key_for (t : Tool) (a : Arguments) : Key :=
  match scope_parameter t with
  | Some sc => key_of sc a
  | None => no_key
  end.

(** A result that is not an acknowledgment. *)
Definition not_ack (r : Outcome JsonText) : Prop :=
  forall address v, r <> Return (sent address v).

(** The call [a] with another value, or with another cuboid index. *)
Definition with_value (a : Arguments) (x : float) : Arguments :=
  {| arg_str := arg_str a; arg_int := arg_int a; arg_float := x |}.

Definition with_cube (a : Arguments) (n : Z) : Arguments :=
  {| arg_str := arg_str a; arg_int := n; arg_float := arg_float a |}.

(** The address of a pair of the registry. *)
Definition address_of (p : Tool * Key) : string :=
  match resolve (fst p) (snd p) with
  | Some address => address
  | None => ""
  end.

(** What the listing returns. *)
Definition the_listing : JsonText :=
  match fst (polynodes_list_osc_addresses initial) with
  | Return j => j
  | Raise _ => dumps (JObject []) None
  end.

(** A datagram to the default destination; a process whose client, when it
    has one, and whose datagrams all point there. *)
Definition to_default (d : Datagram) : Prop :=
  dest_host d = DEFAULT_HOST /\ dest_port d = DEFAULT_PORT.

Definition well_addressed (w : Process) : Prop :=
  (_osc_client w = None \/ _osc_client w = Some default_client)
  /\ Forall to_default (wire w).

(** ** Sequences of calls *)

Definition step (w : Process) (c : Tool * Arguments) : Process :=
  snd (call_tool (fst c) (snd c) w).

Definition run (calls : list (Tool * Arguments)) (w : Process) : Process :=
  fold_left step calls w.

Fixpoint nodupb (l : list string) : bool :=
  match l with
  | [] => true
  | x :: r => negb (existsb (String.eqb x) r) && nodupb r
  end.

(** ** Forms of tools and outcomes of calls *)

(** A float field declares both bounds or none. *)
Definition bounded_or_free (f : FloatField) : Prop :=
  (exists lo hi, ge f = Some lo /\ le f = Some hi) \/ (ge f = None /\ le f = None).

(** The two forms a tool function with a [params] model takes: a send to one
    fixed address, or a send to the address an [addr_map] gives for the
    model's string field. *)
Definition send_fixed (address : string) : Instance -> Py JsonText :=
  fun params => _send_osc address (float_value params).

Definition send_by_key (addr_map : dict string) : Instance -> Py JsonText :=
  fun params =>
    address <- getitem addr_map (str_value params) ;;
    _send_osc address (float_value params).

(** The call [a] with another string argument. *)
Definition with_scope (a : Arguments) (s : string) : Arguments :=
  {| arg_str := s; arg_int := arg_int a; arg_float := arg_float a |}.

(** A datagram sent to the client [c] instead. *)
Definition readdress (c : SimpleUDPClient) (d : Datagram) : Datagram :=
  {| dest_host := _address c; dest_port := _port c;
     osc_address := osc_address d; osc_value := osc_value d |}.

(** What a call hands to the socket when it is made alone, right after
    module load, addressed to the client [c]. *)
Definition emitted (c : SimpleUDPClient) (call : Tool * Arguments) : list Datagram :=
  map (readdress c) (wire (step initial call)).

(** Every key of [ks] is a key of the dictionary. *)
Definition keyed (d : dict string) (ks : list string) : Prop :=
  forall k, In k ks -> exists address, dict_get d k = Some address.

(** How a tool of the registry is built: a model without string field and a
    fixed address; a model with a [level] or a [param] field, validated by
    [validate_level] or [validate_param], and an [addr_map] that has every
    level, or every target; the cuboid switch; the isomorphic target switch. *)
Inductive Shape (t : Tool) : Prop :=
| shape_fixed (M : BaseModel) (address : string) :
    registry t = takes_params M (send_fixed address) ->
    str_field M = None ->
    bounded_or_free (snd (float_field M)) ->
    Shape t
| shape_level (M : BaseModel) (name : string) (d : dict string) :
    registry t = takes_params M (send_by_key d) ->
    str_strip_whitespace M = true ->
    str_field M = Some (name, validate_level) ->
    scope_of_name name = Some Levels ->
    keyed d ["macro"; "meso"; "micro"] ->
    bounded_or_free (snd (float_field M)) ->
    Shape t
| shape_param (M : BaseModel) (name : string) (d : dict string) :
    registry t = takes_params M (send_by_key d) ->
    str_strip_whitespace M = true ->
    str_field M = Some (name, validate_param) ->
    scope_of_name name = Some Targets ->
    keyed d ["freq"; "amp"; "res"] ->
    bounded_or_free (snd (float_field M)) ->
    Shape t
| shape_cuboid : t = cuboid_switch -> Shape t
| shape_switch : t = isomorph_mod_switch -> Shape t.

(** What a call does: it sends its float argument to some address, it is
    rejected by validation, or it returns something that is not an
    acknowledgment; in the last two cases the process is untouched. *)
Inductive Does (t : Tool) (a : Arguments) : Prop :=
| does_send (address : string) :
    behaves (call_tool t a) (Send address (arg_float a)) -> Does t a
| does_reject (errors : list ErrorDetails) :
    errors <> [] ->
    behaves (call_tool t a) (Pure (Raise (ValidationError errors))) -> Does t a
| does_answer (j : JsonText) :
    not_ack (Return j) ->
    behaves (call_tool t a) (Pure (Return j)) -> Does t a.

(** * Properties *)

(** ** Float comparison *)

Section FloatOrder.

Lemma SFcompare_swap (x y : spec_float) :
  SFcompare y x = option_map CompOpp (SFcompare x y).
Proof.
  destruct x as [sx | sx | | sx mx ex], y as [sy | sy | | sy my ey];
    simpl; try reflexivity;
    try (destruct sx; reflexivity); try (destruct sy; reflexivity);
    try (destruct sx, sy; reflexivity).
  destruct sx, sy; simpl; try reflexivity;
    rewrite (Z.compare_antisym ex ey);
    destruct (ex ?= ey)%Z eqn:E; simpl; try reflexivity;
    rewrite (Pos.compare_cont_antisym mx my Eq); reflexivity.
Qed.

(** Strictly below excludes at-or-above, NaN included. *)
Lemma ltb_not_leb (x y : float) :
  (x <? y)%float = true -> (y <=? x)%float = false.
Proof.
  rewrite ltb_spec, leb_spec. unfold SFltb, SFleb.
  rewrite (SFcompare_swap (Prim2SF x) (Prim2SF y)).
  destruct (SFcompare (Prim2SF x) (Prim2SF y)) as [[ | | ] | ];
    simpl; congruence.
Qed.

End FloatOrder.

(** ** Normalisation of scope strings *)

Module StrFacts.
Import Str.

Lemma White_Space_isspace (c : ascii) : is_White_Space c = true -> isspace c = true.
Proof. destruct c as [[] [] [] [] [] [] [] []]; vm_compute; congruence. Qed.

Lemma isspace_char_lower (c : ascii) : isspace (char_lower c) = isspace c.
Proof. destruct c as [[] [] [] [] [] [] [] []]; reflexivity. Qed.

Lemma White_Space_char_lower (c : ascii) :
  is_White_Space (char_lower c) = is_White_Space c.
Proof. destruct c as [[] [] [] [] [] [] [] []]; reflexivity. Qed.

Section Strip.
Variables P Q : ascii -> bool.
Hypothesis P_sub_Q : forall c, P c = true -> Q c = true.

Lemma lstrip_absorb (s : string) : lstrip_by Q (lstrip_by P s) = lstrip_by Q s.
Proof.
  induction s as [ | c r IH]; simpl; [reflexivity | ].
  destruct (P c) eqn:Pc.
  - rewrite (P_sub_Q c Pc). exact IH.
  - reflexivity.
Qed.

Lemma rstrip_absorb (s : string) : rstrip_by Q (rstrip_by P s) = rstrip_by Q s.
Proof.
  induction s as [ | c r IH]; simpl; [reflexivity | ].
  destruct (rstrip_by P r) as [ | c' r'] eqn:E.
  - simpl in IH. rewrite <- IH.
    destruct (P c) eqn:Pc.
    + rewrite (P_sub_Q c Pc). reflexivity.
    + reflexivity.
  - rewrite <- IH. reflexivity.
Qed.

(** Trimming on the left by the larger class and on the right by the smaller
    one commute. *)
Lemma lstrip_rstrip_comm (s : string) :
  lstrip_by Q (rstrip_by P s) = rstrip_by P (lstrip_by Q s).
Proof.
  induction s as [ | c r IH]; simpl; [reflexivity | ].
  destruct (Q c) eqn:Qc.
  - rewrite <- IH.
    destruct (rstrip_by P r) as [ | c' r'] eqn:E.
    + destruct (P c); simpl; [reflexivity | rewrite Qc; reflexivity].
    + simpl. rewrite Qc. reflexivity.
  - assert (Pc : P c = false).
    { destruct (P c) eqn:Pc; [ | reflexivity].
      rewrite (P_sub_Q c Pc) in Qc. discriminate. }
    simpl. rewrite Pc.
    destruct (rstrip_by P r); simpl; rewrite Qc; reflexivity.
Qed.

Lemma strip_absorb (s : string) : strip_by Q (strip_by P s) = strip_by Q s.
Proof.
  unfold strip_by.
  rewrite lstrip_rstrip_comm, rstrip_absorb, lstrip_absorb. reflexivity.
Qed.

End Strip.

Section Lower.
Variable P : ascii -> bool.
Hypothesis P_lower : forall c, P (char_lower c) = P c.

Lemma lower_lstrip (s : string) : lower (lstrip_by P s) = lstrip_by P (lower s).
Proof.
  induction s as [ | c r IH]; simpl; [reflexivity | ].
  rewrite P_lower. destruct (P c); [exact IH | reflexivity].
Qed.

Lemma lower_rstrip (s : string) : lower (rstrip_by P s) = rstrip_by P (lower s).
Proof.
  induction s as [ | c r IH]; simpl; [reflexivity | ].
  rewrite <- IH, P_lower.
  destruct (rstrip_by P r); simpl; [destruct (P c) | ]; reflexivity.
Qed.

Lemma lower_strip (s : string) : lower (strip_by P s) = strip_by P (lower s).
Proof. unfold strip_by. rewrite lower_rstrip, lower_lstrip. reflexivity. Qed.

End Lower.

(** The trimming pydantic does before the validator runs is subsumed by the
    validator's own [lower().strip()]. *)
Lemma normalize_after_pydantic_strip (s : string) :
  strip (lower (pydantic_strip s)) = strip (lower s).
Proof.
  unfold strip, pydantic_strip.
  rewrite (lower_strip is_White_Space White_Space_char_lower).
  apply strip_absorb. exact White_Space_isspace.
Qed.

Lemma tuple_in_In (x : string) (t : list string) : tuple_in x t = true <-> In x t.
Proof.
  unfold tuple_in. rewrite existsb_exists. split.
  - intros [y [Hy E]]. apply String.eqb_eq in E. subst. exact Hy.
  - intros H. exists x. split; [exact H | apply String.eqb_refl].
Qed.

End StrFacts.

(** ** The monad and [_send_osc] *)

Create HintDb tools.
#[global] Hint Unfold
  polynodes_play_stop polynodes_preset_slot polynodes_set_gain
  polynodes_set_dry_wet polynodes_gain_solo polynodes_set_envelope_time
  polynodes_set_playback_rate polynodes_set_playback_rate_mod_range
  polynodes_granular_switch polynodes_granular_duration
  polynodes_granular_duration_mod_range polynodes_filter_switch
  polynodes_set_filter_freq polynodes_set_filter_mod_range
  polynodes_comb_switch polynodes_set_comb_delay
  polynodes_set_comb_mod_range polynodes_blackhole_switch
  polynodes_blackhole_force polynodes_whitehole_switch
  polynodes_whitehole_force polynodes_ringmod_switch polynodes_ringmod_freq
  polynodes_crush_switch polynodes_crush_bit_level polynodes_crush_range
  polynodes_resonator_switch polynodes_resonator_freq_dist
  polynodes_resonator_balance polynodes_cuboid_switch
  polynodes_cuboid_return_level polynodes_isomorph_switch
  polynodes_isomorph_mod_switch polynodes_isomorph_mod_depth
  polynodes_isomorph_bp_center polynodes_navigation_random_trigger
  polynodes_rearrange_trigger polynodes_poly_gates_switch
  polynodes_tuning_pb_switch polynodes_tuning_res_switch
  polynodes_camera_zoom polynodes_camera_rotate polynodes_set_bpm
  polynodes_list_osc_addresses polynodes_send_raw_osc
  : tools.

Lemma _send_osc_run (address : string) (v : float) (w : Process) :
  _send_osc address v w = (Return (sent address v), after_send address v w).
Proof.
  unfold _send_osc, bind, _get_client, send_message, after_send, client_after.
  destruct (_osc_client w) as [c | ] eqn:E; simpl; [rewrite E | ]; reflexivity.
Qed.

Lemma forwarded_after_send (address : string) (v : float) (w : Process) :
  forwarded address v w (_send_osc address v w).
Proof.
  rewrite _send_osc_run. split; [reflexivity | ].
  eexists. simpl. repeat split.
Qed.

Lemma behaves_ret (j : JsonText) : behaves (ret j) (Pure (Return j)).
Proof. intro w. reflexivity. Qed.

Lemma behaves_raise (e : Exception) : behaves (raise e) (Pure (Raise e)).
Proof. intro w. reflexivity. Qed.

Lemma behaves_send (address : string) (v : float) :
  behaves (_send_osc address v) (Send address v).
Proof. intro w. reflexivity. Qed.

Lemma behaves_getitem_send (d : dict string) (k : string) (v : float) :
  behaves (address <- getitem d k ;; _send_osc address v)
          (match dict_get d k with
           | Some address => Send address v
           | None => Pure (Raise (KeyError k))
           end).
Proof. intro w. unfold bind, getitem. destruct (dict_get d k); reflexivity. Qed.


Lemma validate_float_ok (loc : string) (lo hi x : float) :
  (lo <=? x)%float = true -> (x <=? hi)%float = true ->
  validate_float loc {| ge := Some lo; le := Some hi |} x = [].
Proof. intros Hlo Hhi. unfold validate_float. simpl. rewrite Hhi, Hlo. reflexivity. Qed.

Lemma validate_level_normalize (s : string) :
  validate_level (Str.pydantic_strip s)
  = if Str.tuple_in (normalize s) ["macro"; "meso"; "micro"]
    then Valid (normalize s)
    else ValueError "level must be 'macro', 'meso', or 'micro'".
Proof.
  unfold validate_level. rewrite StrFacts.normalize_after_pydantic_strip.
  fold (normalize s). destruct (Str.tuple_in _ _); reflexivity.
Qed.

Lemma validate_param_normalize (s : string) :
  validate_param (Str.pydantic_strip s)
  = if Str.tuple_in (normalize s) ["freq"; "amp"; "res"]
    then Valid (normalize s)
    else ValueError "param must be 'freq', 'amp', or 'res'".
Proof.
  unfold validate_param. rewrite StrFacts.normalize_after_pydantic_strip.
  fold (normalize s). destruct (Str.tuple_in _ _); reflexivity.
Qed.


Section ModelValidation.
Variables (M : BaseModel) (f : Instance -> Py JsonText).

Lemma validate_str_none (s : string) :
  str_field M = None -> validate_str M s = ("", []).
Proof. intros E. unfold validate_str. rewrite E. reflexivity. Qed.

Lemma validate_str_level (name s : string) :
  str_strip_whitespace M = true ->
  str_field M = Some (name, validate_level) ->
  In (normalize s) ["macro"; "meso"; "micro"] ->
  validate_str M s = (normalize s, []).
Proof.
  intros E1 E2 H. unfold validate_str. rewrite E2, E1, validate_level_normalize.
  apply StrFacts.tuple_in_In in H. rewrite H. reflexivity.
Qed.

Lemma validate_str_param (name s : string) :
  str_strip_whitespace M = true ->
  str_field M = Some (name, validate_param) ->
  In (normalize s) ["freq"; "amp"; "res"] ->
  validate_str M s = (normalize s, []).
Proof.
  intros E1 E2 H. unfold validate_str. rewrite E2, E1, validate_param_normalize.
  apply StrFacts.tuple_in_In in H. rewrite H. reflexivity.
Qed.

Lemma call_params_valid (a : Arguments) (v : string) :
  validate_str M (arg_str a) = (v, []) ->
  validate_float (fst (float_field M)) (snd (float_field M)) (arg_float a) = [] ->
  call (takes_params M f) a = f {| str_value := v; float_value := arg_float a |}.
Proof.
  intros E1 E2. unfold call, model_validate. rewrite E1. simpl. rewrite E2. reflexivity.
Qed.

End ModelValidation.

Lemma In_keys_str (k a b c : string) :
  In (key_str k) [key_str a; key_str b; key_str c] -> In k [a; b; c].
Proof.
  simpl. intros [H | [H | [H | []]]]; injection H as H; auto.
Qed.

Ltac float_ok Hx :=
  first [ reflexivity
        | exact (validate_float_ok _ _ _ _ (proj1 Hx) (proj2 Hx)) ].

Ltac by_key H :=
  destruct H as [H | [H | [H | []]]]; rewrite <- H.


Ltac eval_scope t :=
  let sp := eval vm_compute in (scope_parameter t) in
  change (scope_parameter t) with sp in *; cbv iota beta in *.

Ltac eval_range t :=
  let fc := eval vm_compute in (float_constraint t) in
  change (float_constraint t) with fc in *; cbv iota beta in *.

Ltac level_tool Hs Hx :=
  apply In_keys_str in Hs;
  unfold call_tool; cbn [registry];
  erewrite call_params_valid;
    [ | first [ eapply validate_str_level; [reflexivity | reflexivity | exact Hs]
              | eapply validate_str_param; [reflexivity | reflexivity | exact Hs] ]
      | float_ok Hx ];
  by_key Hs; (eexists; split; [vm_compute; reflexivity | ]);
  autounfold with tools; cbn [str_value float_value];
  exact (behaves_getitem_send _ _ _).

Ltac plain_tool Hx :=
  unfold call_tool; cbn [registry];
  erewrite call_params_valid;
    [ | apply validate_str_none; reflexivity | float_ok Hx ];
  (eexists; split; [vm_compute; reflexivity | ]);
  autounfold with tools; cbn [str_value float_value];
  apply behaves_send.

Lemma call_valid (t : Tool) (a : Arguments) :
  is_registry_tool t = true -> scope_valid t a -> in_range t (arg_float a) ->
  exists address,
    resolve t (key_for t a) = Some address
    /\ behaves (call_tool t a) (Send address (arg_float a)).
Proof.
  intros Ht Hs Hx. unfold scope_valid, in_range, key_for in *.
  destruct t; try discriminate Ht; clear Ht;
    match goal with |- context [call_tool ?t _] => eval_scope t; eval_range t end;
    unfold key_of, keys in *.
  all: try solve [plain_tool Hx].
  all: try solve [level_tool Hs Hx].
  - (* cuboid_switch *)
    unfold call_tool; cbn [registry call].
    rewrite (validate_float_ok _ _ _ _ (proj1 Hx) (proj2 Hx)).
    destruct Hs as [H | [H | [H | []]]]; injection H as H; rewrite <- H;
      (eexists; split; [vm_compute; reflexivity | ]);
      cbn [validate_int int_le int_ge Z.leb Z.compare Pos.compare Pos.compare_cont app];
      apply behaves_send.
  - (* isomorph_mod_switch *)
    apply In_keys_str in Hs.
    unfold call_tool; cbn [registry call].
    rewrite (validate_float_ok _ _ _ _ (proj1 Hx) (proj2 Hx)).
    unfold polynodes_isomorph_mod_switch. fold (normalize (arg_str a)).
    by_key Hs; (eexists; split; [vm_compute; reflexivity | ]);
      exact (behaves_getitem_send _ _ _).
Qed.

(** ** Rejections *)

Lemma validate_float_out_of_range (loc : string) (f : FloatField) (lo hi x : float) :
  bounds f = Some (lo, hi) ->
  (x <? lo)%float = true \/ (hi <? x)%float = true ->
  exists e, In e (validate_float loc f x) /\ kind e = OutOfRange.
Proof.
  unfold bounds, validate_float.
  destruct (ge f) as [lo' | ]; [ | discriminate].
  destruct (le f) as [hi' | ]; [ | discriminate].
  intros E [H | H]; injection E as -> ->.
  - destruct (x <=? hi)%float.
    + rewrite (ltb_not_leb _ _ H). eexists. split; [left; reflexivity | reflexivity].
    + eexists. split; [left; reflexivity | reflexivity].
  - rewrite (ltb_not_leb _ _ H). eexists. split; [left; reflexivity | reflexivity].
Qed.

Lemma validate_int_out_of_range (loc : string) (f : IntField) (lo hi n : Z) :
  int_ge f = Some lo -> int_le f = Some hi ->
  (n < lo)%Z \/ (hi < n)%Z ->
  exists e, In e (validate_int loc f n) /\ kind e = OutOfRange.
Proof.
  intros E1 E2 H. unfold validate_int. rewrite E1, E2.
  destruct (n <=? hi)%Z eqn:Hhi; [destruct (lo <=? n)%Z eqn:Hlo | ].
  - apply Z.leb_le in Hhi, Hlo. lia.
  - eexists. split; [left; reflexivity | reflexivity].
  - eexists. split; [left; reflexivity | reflexivity].
Qed.

(** A non-empty error list rejects the call and leaves the process alone. *)
Lemma rejected_of_errors (k : ErrorKind) (w : Process) (e : ErrorDetails)
  (errors : list ErrorDetails) (f : Py JsonText) :
  In e errors -> kind e = k ->
  rejected k w (match errors with
                | [] => f
                | e0 :: l => raise (ValidationError (e0 :: l))
                end w).
Proof.
  intros Hin Hk. destruct errors as [ | e0 l]; [destruct Hin | ].
  exists (e0 :: l). split; [reflexivity | ]. exists e. split; assumption.
Qed.

Lemma call_params_rejected (M : BaseModel) (f : Instance -> Py JsonText)
  (a : Arguments) (w : Process) (k : ErrorKind) (e : ErrorDetails) :
  In e (snd (validate_str M (arg_str a))
        ++ validate_float (fst (float_field M)) (snd (float_field M)) (arg_float a)) ->
  kind e = k ->
  rejected k w (call (takes_params M f) a w).
Proof.
  intros Hin Hk. unfold call, model_validate.
  destruct (validate_str M (arg_str a)) as [v errs]. simpl in Hin.
  destruct (errs ++ _)%list as [ | e0 l]; [destruct Hin | ].
  exists (e0 :: l). split; [reflexivity | ]. exists e. split; assumption.
Qed.

Lemma call_out_of_range (t : Tool) (a : Arguments) (w : Process) (lo hi : float) :
  float_constraint t = Some (lo, hi) ->
  (arg_float a <? lo)%float = true \/ (hi <? arg_float a)%float = true ->
  rejected OutOfRange w (call_tool t a w).
Proof.
  unfold float_constraint, call_tool.
  destruct (registry t) as [M f | [iname ifield] [xname xfield] f
                            | sname [xname xfield] f | f];
    intros E H; [ | | | discriminate E].
  - destruct (validate_float_out_of_range (fst (float_field M)) _ _ _ _ E H)
      as [e [Hin Hk]].
    apply (call_params_rejected M f a w OutOfRange e); [ | exact Hk].
    apply in_or_app. right. exact Hin.
  - destruct (validate_float_out_of_range xname _ _ _ _ E H) as [e [Hin Hk]].
    cbn [call]. apply (rejected_of_errors OutOfRange w e); [ | exact Hk].
    apply in_or_app. right. exact Hin.
  - destruct (validate_float_out_of_range xname _ _ _ _ E H) as [e [Hin Hk]].
    cbn [call]. apply (rejected_of_errors OutOfRange w e); assumption.
Qed.

Lemma call_int_out_of_range (t : Tool) (a : Arguments) (w : Process) (lo hi : Z) :
  int_constraint t = Some (lo, hi) ->
  (arg_int a < lo)%Z \/ (hi < arg_int a)%Z ->
  rejected OutOfRange w (call_tool t a w).
Proof.
  unfold int_constraint, call_tool.
  destruct (registry t) as [M f | [iname ifield] [xname xfield] f
                            | sname [xname xfield] f | f];
    intros E H; try discriminate E.
  destruct (int_ge ifield) as [lo' | ] eqn:E1; [ | discriminate E].
  destruct (int_le ifield) as [hi' | ] eqn:E2; [ | discriminate E].
  injection E as -> ->.
  destruct (validate_int_out_of_range iname _ _ _ _ E1 E2 H) as [e [Hin Hk]].
  cbn [call]. apply (rejected_of_errors OutOfRange w e); [ | exact Hk].
  apply in_or_app. left. exact Hin.
Qed.

Lemma call_invalid_scope (M : BaseModel) (f : Instance -> Py JsonText)
  (name : string) (a : Arguments) (w : Process) :
  str_strip_whitespace M = true ->
  (str_field M = Some (name, validate_level)
   /\ ~ In (normalize (arg_str a)) ["macro"; "meso"; "micro"])
  \/ (str_field M = Some (name, validate_param)
      /\ ~ In (normalize (arg_str a)) ["freq"; "amp"; "res"]) ->
  rejected InvalidScope w (call (takes_params M f) a w).
Proof.
  intros E1 [[E2 H] | [E2 H]];
    (eapply (call_params_rejected M f a w InvalidScope);
     [ apply in_or_app; left; unfold validate_str; rewrite E2, E1;
       first [rewrite validate_level_normalize | rewrite validate_param_normalize];
       destruct (Str.tuple_in _ _) eqn:T;
       [apply StrFacts.tuple_in_In in T; contradiction | left; reflexivity]
     | reflexivity ]).
Qed.

Lemma float_constraint_ordered (t : Tool) (lo hi : float) :
  float_constraint t = Some (lo, hi) ->
  (lo <=? lo)%float = true /\ (lo <=? hi)%float = true /\ (hi <=? hi)%float = true.
Proof.
  destruct t; vm_compute; intros E; try discriminate E;
    injection E as <- <-; repeat split.
Qed.

Lemma float_constraint_registry_tool (t : Tool) :
  float_constraint t <> None -> is_registry_tool t = true.
Proof. destruct t; try reflexivity; vm_compute; congruence. Qed.

Lemma forwarded_of_behaves (m : Py JsonText) (address : string) (v : float)
  (w : Process) :
  behaves m (Send address v) -> forwarded address v w (m w).
Proof. intros H. rewrite (H w). apply forwarded_after_send. Qed.

Lemma in_range_endpoints (t : Tool) (lo hi : float) :
  float_constraint t = Some (lo, hi) -> in_range t lo /\ in_range t hi.
Proof.
  intros E. destruct (float_constraint_ordered t lo hi E) as [H1 [H2 H3]].
  unfold in_range. rewrite E. auto.
Qed.

(** ** Bounds, scopes and the raw send *)

(** C4. Setting the gain of level "meso" to -12.5 forwards exactly one
    message, address "/polynodes/MesoGain" and value -12.5, and returns the
    acknowledgment [{status: "sent", address: "/polynodes/MesoGain", value:
    -12.5}]; with value 25.0 the call is rejected as out of range (the
    maximum is 20.0) and nothing is forwarded. *)
Theorem set_gain_meso_scenario (n : Z) (w : Process) :
  forwarded "/polynodes/MesoGain" (-12.5)%float w
    (call_tool set_gain {| arg_str := "meso"; arg_int := n; arg_float := (-12.5)%float |} w)
  /\ call_tool set_gain {| arg_str := "meso"; arg_int := n; arg_float := 25.0%float |} w
     = (Raise (ValidationError [less_than_equal "value" 20.0%float 25.0%float]), w)
  /\ rejected OutOfRange w
       (call_tool set_gain {| arg_str := "meso"; arg_int := n; arg_float := 25.0%float |} w).
Proof.
  split; [ | split].
  - change (call_tool set_gain _ w) with (_send_osc "/polynodes/MesoGain" (-12.5)%float w).
    apply forwarded_after_send.
  - reflexivity.
  - eexists. split; [reflexivity | ].
    eexists. split; [left; reflexivity | reflexivity].
Qed.


(** C1 (the code departs from the claim). The playback rate and the comb
    delay are forwarded whatever the value is: their models declare no
    bound, so a rate of 50 for "macro" (documented range 0.3 to 10) and a
    delay of 5000 for "micro" (documented range 10 to 300) are sent. *)
Theorem playback_rate_and_comb_delay_unchecked (x : float) (n : Z) (w : Process) :
  forwarded "/polynodes/pbrmacro" x w
    (call_tool set_playback_rate {| arg_str := "macro"; arg_int := n; arg_float := x |} w)
  /\ forwarded "/polynodes/combmicro" x w
       (call_tool set_comb_delay {| arg_str := "micro"; arg_int := n; arg_float := x |} w)
  /\ float_constraint set_playback_rate = None
  /\ float_constraint set_comb_delay = None
  /\ call_tool set_playback_rate
       {| arg_str := "macro"; arg_int := 0; arg_float := 50.0%float |} initial
     = (Return (sent "/polynodes/pbrmacro" 50.0%float),
        {| _osc_client := Some {| _address := "127.0.0.1"; _port := 4799 |};
           wire := [{| dest_host := "127.0.0.1"; dest_port := 4799;
                       osc_address := "/polynodes/pbrmacro";
                       osc_value := 50.0%float |}] |}).
Proof.
  refine (conj _ (conj _ (conj eq_refl (conj eq_refl eq_refl)))).
  - change (call_tool set_playback_rate _ w) with (_send_osc "/polynodes/pbrmacro" x w).
    apply forwarded_after_send.
  - change (call_tool set_comb_delay _ w) with (_send_osc "/polynodes/combmicro" x w).
    apply forwarded_after_send.
Qed.

Lemma int_constraint_cuboid (t : Tool) (lo hi : Z) :
  int_constraint t = Some (lo, hi) -> t = cuboid_switch /\ lo = 1%Z /\ hi = 3%Z.
Proof.
  destruct t; vm_compute; intros E; try discriminate E.
  injection E as <- <-. auto.
Qed.

(** C2. For every tool whose signature declares a numeric constraint
    [lo, hi]: a value strictly below [lo] or strictly above [hi] is rejected
    as out of range and nothing is sent; with a valid scope, the value [lo]
    and the value [hi] are both accepted, acknowledged and forwarded.  This
    holds for the float constraints and for the integer constraint on the
    cuboid index. *)
Theorem closed_interval_endpoints (t : Tool) (a : Arguments) (w : Process) :
  (forall lo hi : float, float_constraint t = Some (lo, hi) ->
     (forall x, (x <? lo)%float = true \/ (hi <? x)%float = true ->
                rejected OutOfRange w (call_tool t (with_value a x) w))
     /\ (scope_valid t a ->
         exists address,
           resolve t (key_for t a) = Some address
           /\ forwarded address lo w (call_tool t (with_value a lo) w)
           /\ forwarded address hi w (call_tool t (with_value a hi) w)))
  /\ (forall lo hi : Z, int_constraint t = Some (lo, hi) ->
        (forall n, (n < lo)%Z \/ (hi < n)%Z ->
                   rejected OutOfRange w (call_tool t (with_cube a n) w))
        /\ (in_range t (arg_float a) ->
            (exists address,
               forwarded address (arg_float a) w (call_tool t (with_cube a lo) w))
            /\ (exists address,
                  forwarded address (arg_float a) w (call_tool t (with_cube a hi) w)))).
Proof.
  split; intros lo hi E; split.
  - intros x H. exact (call_out_of_range t (with_value a x) w lo hi E H).
  - intros Hs.
    assert (Ht : is_registry_tool t = true).
    { apply float_constraint_registry_tool. rewrite E. discriminate. }
    destruct (in_range_endpoints t lo hi E) as [Hlo Hhi].
    destruct (call_valid t (with_value a lo) Ht Hs Hlo) as [address [R B]].
    destruct (call_valid t (with_value a hi) Ht Hs Hhi) as [address' [R' B']].
    change (key_for t (with_value a lo)) with (key_for t a) in R.
    change (key_for t (with_value a hi)) with (key_for t a) in R'.
    assert (address' = address) by congruence. subst address'.
    exists address. split; [exact R | ].
    split; apply forwarded_of_behaves; assumption.
  - intros n H. exact (call_int_out_of_range t (with_cube a n) w lo hi E H).
  - intros Hx. destruct (int_constraint_cuboid t lo hi E) as [-> [-> ->]].
    split.
    + assert (Hs : scope_valid cuboid_switch (with_cube a 1))
        by (vm_compute; auto).
      destruct (call_valid cuboid_switch (with_cube a 1) eq_refl Hs Hx)
        as [address [_ B]].
      exists address. apply forwarded_of_behaves. exact B.
    + assert (Hs : scope_valid cuboid_switch (with_cube a 3))
        by (vm_compute; auto).
      destruct (call_valid cuboid_switch (with_cube a 3) eq_refl Hs Hx)
        as [address [_ B]].
      exists address. apply forwarded_of_behaves. exact B.
Qed.

Lemma closed_interval_endpoints_witness :
  let a := {| arg_str := " Meso"; arg_int := 2; arg_float := 0.5%float |} in
  rejected OutOfRange initial (call_tool set_gain (with_value a (-80.5)%float) initial)
  /\ rejected OutOfRange initial (call_tool set_gain (with_value a 20.5%float) initial)
  /\ (exists address,
        resolve set_gain (key_for set_gain a) = Some address
        /\ forwarded address (-80.0)%float initial
             (call_tool set_gain (with_value a (-80.0)%float) initial)
        /\ forwarded address 20.0%float initial
             (call_tool set_gain (with_value a 20.0%float) initial))
  /\ rejected OutOfRange initial (call_tool cuboid_switch (with_cube a 4) initial)
  /\ (exists address,
        forwarded address 0.5%float initial (call_tool cuboid_switch (with_cube a 1) initial)).
Proof.
  intros a.
  pose proof (closed_interval_endpoints set_gain a initial) as [F _].
  pose proof (closed_interval_endpoints cuboid_switch a initial) as [_ I].
  destruct (F (-80.0)%float 20.0%float eq_refl) as [F1 F2].
  destruct (I 1%Z 3%Z eq_refl) as [I1 I2].
  split; [apply F1; left; reflexivity | ].
  split; [apply F1; right; reflexivity | ].
  split; [apply F2; vm_compute; auto | ].
  split; [apply I1; right; reflexivity | ].
  apply I2. vm_compute. auto.
Defined.

Lemma In_key_str (k a b c : string) :
  In k [a; b; c] -> In (key_str k) [key_str a; key_str b; key_str c].
Proof. simpl. intros [H | [H | [H | []]]]; subst; auto. Qed.

Lemma string_scoped_cases (t : Tool) (sc : ScopeSet) :
  scope_parameter t = Some sc -> sc <> Cubes -> t <> isomorph_mod_switch ->
  exists M f name,
    registry t = takes_params M f
    /\ str_strip_whitespace M = true
    /\ ((sc = Levels /\ str_field M = Some (name, validate_level))
        \/ (sc = Targets /\ str_field M = Some (name, validate_param))).
Proof.
  intros E Hc Hi.
  destruct t;
    match type of E with scope_parameter ?t = _ => eval_scope t end;
    try discriminate E; injection E as <-; try congruence.
  all: do 3 eexists; split; [reflexivity | split; [reflexivity | ]].
  all: first [left; split; reflexivity | right; split; reflexivity].
Qed.

(** C3, as the code has it. For every tool whose scope parameter is a
    string ([level] or [param]), the scope string is lower-cased and
    trimmed: if the normalised string is in the tool's enumerated set and
    the value is within the tool's bounds, the call is acknowledged and
    forwarded to the address the registry resolves for the normalised key;
    if it is not in the set, every such tool other than the isomorphic
    target switch rejects the call as an invalid scope, whatever the value,
    and the process is untouched: no address is resolved, nothing is sent. *)
Theorem scope_normalization (t : Tool) (sc : ScopeSet) (a : Arguments) (w : Process) :
  scope_parameter t = Some sc -> sc <> Cubes ->
  (In (key_str (normalize (arg_str a))) (keys sc) -> in_range t (arg_float a) ->
   exists address,
     resolve t (key_str (normalize (arg_str a))) = Some address
     /\ forwarded address (arg_float a) w (call_tool t a w))
  /\ (~ In (key_str (normalize (arg_str a))) (keys sc) -> t <> isomorph_mod_switch ->
      rejected InvalidScope w (call_tool t a w)).
Proof.
  intros E Hc. split.
  - intros Hin Hx.
    assert (Ht : is_registry_tool t = true).
    { destruct t; try reflexivity; vm_compute in E; discriminate E. }
    assert (Hs : scope_valid t a).
    { unfold scope_valid. rewrite E. destruct sc; [exact Hin | exact Hin | congruence]. }
    destruct (call_valid t a Ht Hs Hx) as [address [R B]].
    unfold key_for in R. rewrite E in R.
    exists address. split.
    + destruct sc; [exact R | exact R | congruence].
    + apply forwarded_of_behaves. exact B.
  - intros Hin Hi.
    destruct (string_scoped_cases t sc E Hc Hi) as [M [f [name [R [S C]]]]].
    unfold call_tool. rewrite R.
    apply (call_invalid_scope M f name a w S).
    destruct C as [[-> C] | [-> C]]; [left | right]; (split; [exact C | ]);
      intros H; apply Hin; apply In_key_str; exact H.
Qed.

Lemma scope_normalization_witness :
  (exists address,
     resolve set_gain (key_str "macro") = Some address
     /\ forwarded address 3.0%float initial
          (call_tool set_gain {| arg_str := " MACRO "; arg_int := 0; arg_float := 3.0%float |}
             initial))
  /\ rejected InvalidScope initial
       (call_tool set_gain {| arg_str := "giant"; arg_int := 0; arg_float := 3.0%float |}
          initial).
Proof.
  split.
  - apply (proj1 (scope_normalization set_gain Levels
                    {| arg_str := " MACRO "; arg_int := 0; arg_float := 3.0%float |}
                    initial eq_refl ltac:(discriminate))).
    + vm_compute. auto.
    + vm_compute. auto.
  - apply (proj2 (scope_normalization set_gain Levels
                    {| arg_str := "giant"; arg_int := 0; arg_float := 3.0%float |}
                    initial eq_refl ltac:(discriminate))).
    + vm_compute. intros [H | [H | [H | []]]]; discriminate H.
    + discriminate.
Defined.

(** C3 as stated fails on the isomorphic target switch, a tool with a
    string scope parameter: the unrecognised token "giant" is answered with
    an error payload as a normal result; the call is not rejected. *)
Lemma isomorph_mod_switch_not_rejected :
  call_tool isomorph_mod_switch
    {| arg_str := "giant"; arg_int := 0; arg_float := 1.0%float |} initial
  = (Return (dumps (JObject [("error", JString "param must be 'freq', 'amp', or 'res'")])
                   None),
     initial)
  /\ scope_parameter isomorph_mod_switch = Some Targets
  /\ ~ In (key_str (normalize "giant")) (keys Targets)
  /\ ~ rejected InvalidScope initial
         (call_tool isomorph_mod_switch
            {| arg_str := "giant"; arg_int := 0; arg_float := 1.0%float |} initial).
Proof.
  split; [reflexivity | ]. split; [reflexivity | ]. split.
  - vm_compute. intros [H | [H | [H | []]]]; discriminate H.
  - intros [errors [E _]]. vm_compute in E. discriminate E.
Qed.

(** C8. The isomorphic target switch, with a state within [0, 1]: a param
    whose normalised form is not one of freq, amp, res is answered with the
    payload [{error: ...}] as a normal result, and nothing is sent; a param
    whose normalised form is one of them is forwarded to the address of that
    target and acknowledged. *)
Theorem isomorph_mod_switch_error_payload (a : Arguments) (w : Process) :
  (0.0 <=? arg_float a)%float = true -> (arg_float a <=? 1.0)%float = true ->
  (~ In (normalize (arg_str a)) ["freq"; "amp"; "res"] ->
   call_tool isomorph_mod_switch a w
   = (Return (dumps (JObject [("error", JString "param must be 'freq', 'amp', or 'res'")])
                    None),
      w))
  /\ (forall key address,
        In (key, address) [("freq", "/polynodes/isomfreqsw");
                           ("amp", "/polynodes/isomampsw");
                           ("res", "/polynodes/isomressw")] ->
        normalize (arg_str a) = key ->
        forwarded address (arg_float a) w (call_tool isomorph_mod_switch a w)).
Proof.
  intros Hlo Hhi.
  unfold call_tool; cbn [registry call].
  rewrite (validate_float_ok _ _ _ _ Hlo Hhi).
  unfold polynodes_isomorph_mod_switch. fold (normalize (arg_str a)).
  split.
  - intros Hin.
    assert (E : dict_contains
                  [("freq", "/polynodes/isomfreqsw");
                   ("amp", "/polynodes/isomampsw");
                   ("res", "/polynodes/isomressw")] (normalize (arg_str a)) = false).
    { unfold dict_contains. cbn [dict_get].
      destruct (String.eqb_spec (normalize (arg_str a)) "freq") as [H | _];
        [elim Hin; rewrite H; simpl; auto | ].
      destruct (String.eqb_spec (normalize (arg_str a)) "amp") as [H | _];
        [elim Hin; rewrite H; simpl; auto | ].
      destruct (String.eqb_spec (normalize (arg_str a)) "res") as [H | _];
        [elim Hin; rewrite H; simpl; auto | ].
      reflexivity. }
    rewrite E. reflexivity.
  - intros key address Hin Hk. rewrite Hk.
    destruct Hin as [H | [H | [H | []]]]; injection H as <- <-;
      apply forwarded_of_behaves; exact (behaves_getitem_send _ _ _).
Qed.

Lemma isomorph_mod_switch_error_payload_witness :
  call_tool isomorph_mod_switch
    {| arg_str := "giant"; arg_int := 0; arg_float := 1.0%float |} initial
  = (Return (dumps (JObject [("error", JString "param must be 'freq', 'amp', or 'res'")])
                   None),
     initial)
  /\ forwarded "/polynodes/isomampsw" 1.0%float initial
       (call_tool isomorph_mod_switch
          {| arg_str := " AMP"; arg_int := 0; arg_float := 1.0%float |} initial).
Proof.
  split.
  - apply (proj1 (isomorph_mod_switch_error_payload
                    {| arg_str := "giant"; arg_int := 0; arg_float := 1.0%float |}
                    initial eq_refl eq_refl)).
    vm_compute. intros [H | [H | [H | []]]]; discriminate H.
  - apply (proj2 (isomorph_mod_switch_error_payload
                    {| arg_str := " AMP"; arg_int := 0; arg_float := 1.0%float |}
                    initial eq_refl eq_refl) "amp").
    + simpl. auto.
    + reflexivity.
Defined.

(** ** The registry *)

Lemma nodupb_NoDup (l : list string) : nodupb l = true -> NoDup l.
Proof.
  induction l as [ | x r IH]; simpl; intros H; constructor.
  - apply andb_prop in H. destruct H as [H _].
    intros Hin. apply negb_true_iff in H.
    assert (existsb (String.eqb x) r = true); [ | congruence].
    apply existsb_exists. exists x. split; [exact Hin | apply String.eqb_refl].
  - apply IH. apply andb_prop in H. tauto.
Qed.

Lemma NoDup_map_injective {A : Type} (f : A -> string) (l : list A) :
  NoDup (map f l) -> forall x y, In x l -> In y l -> f x = f y -> x = y.
Proof.
  induction l as [ | z r IH]; simpl; intros H x y Hx Hy E; [destruct Hx | ].
  inversion H as [ | ? ? Hnotin Hnodup]; subst.
  destruct Hx as [-> | Hx], Hy as [-> | Hy].
  - reflexivity.
  - elim Hnotin. rewrite E. apply in_map. exact Hy.
  - elim Hnotin. rewrite <- E. apply in_map. exact Hx.
  - apply IH; assumption.
Qed.

Lemma all_tools_complete (t : Tool) : In t all_tools.
Proof. destruct t; unfold all_tools; repeat first [left; reflexivity | right]. Qed.

Lemma registry_pair_listed (t : Tool) (k : Key) :
  registry_pair t k -> In (t, k) registry_pairs.
Proof.
  intros [Ht Hk]. unfold registry_pairs.
  apply in_flat_map. exists t. split.
  - apply filter_In. split; [apply all_tools_complete | exact Ht].
  - destruct (scope_parameter t) as [sc | ].
    + apply in_map. exact Hk.
    + left. rewrite Hk. reflexivity.
Qed.

Lemma registry_pairs_sound (t : Tool) (k : Key) :
  In (t, k) registry_pairs -> registry_pair t k.
Proof.
  unfold registry_pairs. intros H.
  apply in_flat_map in H. destruct H as [t' [Ht H]].
  apply filter_In in Ht. destruct Ht as [_ Ht].
  unfold registry_pair.
  destruct (scope_parameter t') as [sc | ] eqn:E.
  - apply in_map_iff in H. destruct H as [k' [H Hk]].
    injection H as <- <-. rewrite E. auto.
  - destruct H as [H | []]. injection H as <- <-. rewrite E. auto.
Qed.

Lemma registry_addresses_distinct : NoDup (map address_of registry_pairs).
Proof. apply nodupb_NoDup. vm_compute. reflexivity. Qed.

(** C5. The registry is complete and injective: every key of a tool's scope
    set resolves to an address, a valid call with that key is forwarded to
    that address, and two pairs of the registry that resolve to the same
    address are the same tool with the same key. *)
Theorem address_registry_complete_injective :
  (forall t sc k, scope_parameter t = Some sc -> In k (keys sc) ->
                  exists address, resolve t k = Some address)
  /\ (forall t a w, is_registry_tool t = true -> scope_valid t a ->
                    in_range t (arg_float a) ->
                    exists address,
                      resolve t (key_for t a) = Some address
                      /\ forwarded address (arg_float a) w (call_tool t a w))
  /\ (forall t1 k1 t2 k2 address,
        registry_pair t1 k1 -> registry_pair t2 k2 ->
        resolve t1 k1 = Some address -> resolve t2 k2 = Some address ->
        t1 = t2 /\ k1 = k2).
Proof.
  split; [ | split].
  - intros t sc k E Hk.
    destruct t; match type of E with scope_parameter ?t = _ => eval_scope t end;
      try discriminate E; injection E as <-;
      destruct Hk as [<- | [<- | [<- | []]]]; vm_compute; eauto.
  - intros t a w Ht Hs Hx.
    destruct (call_valid t a Ht Hs Hx) as [address [R B]].
    exists address. split; [exact R | apply forwarded_of_behaves; exact B].
  - intros t1 k1 t2 k2 address P1 P2 R1 R2.
    assert (E : (t1, k1) = (t2, k2)).
    { apply (NoDup_map_injective address_of registry_pairs registry_addresses_distinct).
      - apply registry_pair_listed. exact P1.
      - apply registry_pair_listed. exact P2.
      - unfold address_of. simpl. rewrite R1, R2. reflexivity. }
    injection E as -> ->. auto.
Qed.

Lemma inclb_incl (l1 l2 : list string) :
  forallb (fun x => existsb (String.eqb x) l2) l1 = true -> incl l1 l2.
Proof.
  intros H x Hx. rewrite forallb_forall in H. specialize (H x Hx).
  apply existsb_exists in H. destruct H as [y [Hy E]].
  apply String.eqb_eq in E. subst. exact Hy.
Qed.

Lemma registry_pair_of_valid (t : Tool) (a : Arguments) :
  is_registry_tool t = true -> scope_valid t a -> registry_pair t (key_for t a).
Proof.
  intros Ht Hs. split; [exact Ht | ].
  unfold scope_valid, key_for in *. destruct (scope_parameter t); auto.
Qed.

Lemma registry_in_listing :
  incl (map address_of registry_pairs) (listed_addresses the_listing).
Proof. apply inclb_incl. vm_compute. reflexivity. Qed.

Lemma listing_in_registry :
  incl (listed_addresses the_listing) (map address_of registry_pairs).
Proof. apply inclb_incl. vm_compute. reflexivity. Qed.

Lemma registry_pairs_resolve (p : Tool * Key) :
  In p registry_pairs -> resolve (fst p) (snd p) = Some (address_of p).
Proof.
  intros H.
  assert (F : forallb (fun p => match resolve (fst p) (snd p) with
                                | Some _ => true
                                | None => false
                                end) registry_pairs = true)
    by (vm_compute; reflexivity).
  rewrite forallb_forall in F. specialize (F p H).
  unfold address_of. destruct (resolve (fst p) (snd p)); [reflexivity | discriminate F].
Qed.

(** C7. The listing returns its seventeen categories, and under them
    exactly the addresses of the registry: every address a tool resolves
    to is listed, every listed address is resolved by some tool, and every
    valid call of a registry tool is forwarded to a listed address.  The
    listing itself sends nothing and leaves the process as it was. *)
Theorem listing_complete_and_silent (a : Arguments) (w : Process) :
  exists j,
    call_tool list_osc_addresses a w = (Return j, w)
    /\ map fst (listed j)
       = ["transport"; "gain"; "envelope"; "playback_rate"; "granulator";
          "bandpass_filter"; "comb_filter"; "blackhole"; "whitehole";
          "ring_modulator"; "bitcrusher"; "resonator"; "cuboid_fx"; "isomorph";
          "navigation"; "tuning"; "camera"]
    /\ (forall t k address,
          registry_pair t k -> resolve t k = Some address ->
          In address (listed_addresses j))
    /\ (forall address,
          In address (listed_addresses j) ->
          exists t k, registry_pair t k /\ resolve t k = Some address)
    /\ (forall t a' w',
          is_registry_tool t = true -> scope_valid t a' -> in_range t (arg_float a') ->
          exists address,
            In address (listed_addresses j)
            /\ forwarded address (arg_float a') w' (call_tool t a' w'))
    /\ In "/polynodes/DryWet" (listed_addresses j)
    /\ In "/polynodes/MacroGain" (listed_addresses j)
    /\ In "/polynodes/filtmacroMR" (listed_addresses j).
Proof.
  exists the_listing.
  assert (Cover : forall t k address,
             registry_pair t k -> resolve t k = Some address ->
             In address (listed_addresses the_listing)).
  { intros t k address P R. apply registry_in_listing.
    apply registry_pair_listed in P.
    replace address with (address_of (t, k)); [apply in_map; exact P | ].
    unfold address_of. simpl. rewrite R. reflexivity. }
  split; [reflexivity | ]. split; [reflexivity | ]. split; [exact Cover | ].
  split; [ | split; [ | split; [ | split]]].
  - intros address H. apply listing_in_registry in H.
    apply in_map_iff in H. destruct H as [[t k] [E P]].
    exists t, k. split; [apply registry_pairs_sound; exact P | ].
    rewrite <- E. exact (registry_pairs_resolve (t, k) P).
  - intros t a' w' Ht Hs Hx.
    destruct (call_valid t a' Ht Hs Hx) as [address [R B]].
    exists address. split.
    + exact (Cover t (key_for t a') address (registry_pair_of_valid t a' Ht Hs) R).
    + apply forwarded_of_behaves. exact B.
  - apply inclb_incl with (l1 := ["/polynodes/DryWet"]); [reflexivity | left; reflexivity].
  - apply inclb_incl with (l1 := ["/polynodes/MacroGain"]); [reflexivity | left; reflexivity].
  - apply inclb_incl with (l1 := ["/polynodes/filtmacroMR"]); [reflexivity | left; reflexivity].
Qed.

(** ** Repeated calls *)

Lemma not_ack_raise (e : Exception) : not_ack (Raise e).
Proof. intros address v. discriminate. Qed.

Lemma pure_or_send_getitem (d : dict string) (k : string) (v : float) :
  (exists r, not_ack r /\ behaves (address <- getitem d k ;; _send_osc address v) (Pure r))
  \/ (exists address, behaves (address <- getitem d k ;; _send_osc address v)
                              (Send address v)).
Proof.
  pose proof (behaves_getitem_send d k v) as B.
  destruct (dict_get d k) as [address | ].
  - right. exists address. exact B.
  - left. eexists. split; [apply not_ack_raise | exact B].
Qed.

(** Every call either leaves the process alone and returns something
    other than an acknowledgment, or is one [_send_osc] of the float
    argument. *)
Lemma call_tool_pure_or_send (t : Tool) (a : Arguments) :
  (exists r, not_ack r /\ behaves (call_tool t a) (Pure r))
  \/ (exists address, behaves (call_tool t a) (Send address (arg_float a))).
Proof.
  destruct t; unfold call_tool; cbn [registry call].
  all: try (unfold model_validate;
    destruct (validate_str _ _) as [v errs];
    destruct (errs ++ _)%list;
    [ autounfold with tools; cbn [str_value float_value];
      first [ right; eexists; apply behaves_send | apply pure_or_send_getitem ]
    | left; eexists; split; [apply not_ack_raise | apply behaves_raise] ]).
  all: try (match goal with
            | |- context [match ?l with [] => _ | _ => _ end] => destruct l
            end;
    [ | left; eexists; split; [apply not_ack_raise | apply behaves_raise] ]).
  - right. eexists. apply behaves_send.
  - unfold polynodes_isomorph_mod_switch. destruct (negb _).
    + left. eexists. split; [ | apply behaves_ret].
      intros address v H. discriminate H.
    + apply pure_or_send_getitem.
  - left. eexists. split; [ | apply behaves_ret].
    intros address v H. discriminate H.
  - right. eexists. apply behaves_send.
Qed.


(** ** The destination *)

Lemma after_send_well_addressed (address : string) (v : float) (w : Process) :
  well_addressed w -> well_addressed (after_send address v w).
Proof.
  intros [Hc Hw].
  assert (E : client_after w = default_client).
  { unfold client_after. destruct Hc as [-> | ->]; reflexivity. }
  unfold after_send. rewrite E. split; simpl.
  - right. reflexivity.
  - apply Forall_app. split; [exact Hw | ].
    constructor; [split; reflexivity | constructor].
Qed.

Lemma step_well_addressed (w : Process) (c : Tool * Arguments) :
  well_addressed w -> well_addressed (step w c).
Proof.
  intros H. unfold step.
  destruct (call_tool_pure_or_send (fst c) (snd c)) as [[r [_ B]] | [address B]];
    rewrite (B w); unfold exec.
  - exact H.
  - rewrite _send_osc_run. apply after_send_well_addressed. exact H.
Qed.

Lemma run_well_addressed (calls : list (Tool * Arguments)) (w : Process) :
  well_addressed w -> well_addressed (run calls w).
Proof.
  revert w. induction calls as [ | c r IH]; intros w H; simpl.
  - exact H.
  - apply IH. apply step_well_addressed. exact H.
Qed.

(** C10. Whatever calls are made from module load on, every datagram goes
    to 127.0.0.1:4799: [_send_osc] creates the client with the defaults when
    there is none, and [_get_client] returns an existing client whatever
    host and port it is given, leaving the process as it is. *)
Theorem every_message_to_default_destination (calls : list (Tool * Arguments)) :
  Forall (fun d => dest_host d = "127.0.0.1" /\ dest_port d = 4799%Z)
         (wire (run calls initial))
  /\ (_osc_client (run calls initial) = None
      \/ _osc_client (run calls initial)
         = Some {| _address := "127.0.0.1"; _port := 4799 |})
  /\ (forall c ds host port,
        _get_client host port {| _osc_client := Some c; wire := ds |}
        = (Return c, {| _osc_client := Some c; wire := ds |}))
  /\ (forall address v ds,
        _osc_client (snd (_send_osc address v {| _osc_client := None; wire := ds |}))
        = Some {| _address := "127.0.0.1"; _port := 4799 |}).
Proof.
  assert (H : well_addressed (run calls initial)).
  { apply run_well_addressed. split; [left; reflexivity | constructor]. }
  destruct H as [Hc Hw].
  split; [exact Hw | ]. split; [exact Hc | ]. split; reflexivity.
Qed.

(** ** More about validators and normalisation *)

Module NormFacts.
Import Str.

Lemma char_lower_idempotent (c : ascii) : char_lower (char_lower c) = char_lower c.
Proof. destruct c as [[] [] [] [] [] [] [] []]; reflexivity. Qed.

Lemma lower_idempotent (s : string) : lower (lower s) = lower s.
Proof.
  induction s as [ | c r IH]; simpl; [reflexivity | ].
  rewrite char_lower_idempotent, IH. reflexivity.
Qed.

Lemma normalize_idempotent (s : string) : normalize (normalize s) = normalize s.
Proof.
  unfold normalize, strip.
  rewrite (StrFacts.lower_strip isspace StrFacts.isspace_char_lower).
  rewrite lower_idempotent.
  apply StrFacts.strip_absorb. auto.
Qed.

End NormFacts.

Lemma validate_level_Valid (s v : string) :
  validate_level s = Valid v ->
  v = normalize s /\ In v ["macro"; "meso"; "micro"].
Proof.
  unfold validate_level. fold (normalize s).
  destruct (Str.tuple_in (normalize s) _) eqn:T; cbn [negb]; intros H;
    [ | discriminate H].
  injection H as <-. split; [reflexivity | ].
  apply (proj1 (StrFacts.tuple_in_In _ _)). exact T.
Qed.

Lemma validate_param_Valid (s v : string) :
  validate_param s = Valid v ->
  v = normalize s /\ In v ["freq"; "amp"; "res"].
Proof.
  unfold validate_param. fold (normalize s).
  destruct (Str.tuple_in (normalize s) _) eqn:T; cbn [negb]; intros H;
    [ | discriminate H].
  injection H as <-. split; [reflexivity | ].
  apply (proj1 (StrFacts.tuple_in_In _ _)). exact T.
Qed.

(** X1. Whatever string a scope validator accepts, the value it stores is
    one of the three canonical keys, and validating that key again returns
    it unchanged. *)
Theorem validators_return_canonical_keys (s v : string) :
  (validate_level s = Valid v ->
   In v ["macro"; "meso"; "micro"] /\ validate_level v = Valid v)
  /\ (validate_param s = Valid v ->
      In v ["freq"; "amp"; "res"] /\ validate_param v = Valid v).
Proof.
  split; intros H.
  - apply validate_level_Valid in H. destruct H as [_ H]. split; [exact H | ].
    destruct H as [<- | [<- | [<- | []]]]; reflexivity.
  - apply validate_param_Valid in H. destruct H as [_ H]. split; [exact H | ].
    destruct H as [<- | [<- | [<- | []]]]; reflexivity.
Qed.

Lemma validators_return_canonical_keys_witness :
  (In "meso" ["macro"; "meso"; "micro"] /\ validate_level "meso" = Valid "meso")
  /\ (In "res" ["freq"; "amp"; "res"] /\ validate_param "res" = Valid "res").
Proof.
  split.
  - exact (proj1 (validators_return_canonical_keys "  MeSo " "meso") eq_refl).
  - exact (proj2 (validators_return_canonical_keys "RES " "res") eq_refl).
Defined.

(** X2. The trimming that [str_strip_whitespace] does before a scope
    validator runs changes nothing: the validator gives the same result on
    the trimmed and on the untrimmed string. *)
Theorem str_strip_whitespace_redundant (s : string) :
  validate_level (Str.pydantic_strip s) = validate_level s
  /\ validate_param (Str.pydantic_strip s) = validate_param s.
Proof.
  split.
  - unfold validate_level. rewrite StrFacts.normalize_after_pydantic_strip. reflexivity.
  - unfold validate_param. rewrite StrFacts.normalize_after_pydantic_strip. reflexivity.
Qed.


Ltac solve_bounded :=
  first [ left; do 2 eexists; split; reflexivity | right; split; reflexivity ].

Ltac solve_keyed :=
  intros k [<- | [<- | [<- | []]]]; eexists; reflexivity.

Lemma registry_shape (t : Tool) : is_registry_tool t = true -> Shape t.
Proof.
  destruct t; intros H; try discriminate H; clear H;
    first
      [ apply shape_cuboid; reflexivity
      | apply shape_switch; reflexivity
      | eapply shape_fixed; [reflexivity | reflexivity | solve_bounded]
      | eapply shape_level;
        [reflexivity | reflexivity | reflexivity | reflexivity
         | solve_keyed | solve_bounded]
      | eapply shape_param;
        [reflexivity | reflexivity | reflexivity | reflexivity
         | solve_keyed | solve_bounded] ].
Qed.

(** ** Validation, exactly *)



Lemma model_validate_cases (M : BaseModel) (s : string) (x : float) :
  (exists v,
     validate_str M s = (v, [])
     /\ validate_float (fst (float_field M)) (snd (float_field M)) x = []
     /\ model_validate M s x = inl {| str_value := v; float_value := x |})
  \/ (exists errors, errors <> [] /\ model_validate M s x = inr errors).
Proof.
  unfold model_validate. destruct (validate_str M s) as [v errs].
  destruct (errs ++ _) as [ | e l] eqn:E.
  - left. apply app_eq_nil in E. destruct E as [-> E]. exists v. auto.
  - right. exists (e :: l). split; [discriminate | reflexivity].
Qed.

Lemma validate_str_level_inv (M : BaseModel) (name s v : string) :
  str_strip_whitespace M = true ->
  str_field M = Some (name, validate_level) ->
  validate_str M s = (v, []) ->
  v = normalize s /\ In v ["macro"; "meso"; "micro"].
Proof.
  intros E1 E2. unfold validate_str. rewrite E2, E1.
  destruct (validate_level _) as [v' | msg] eqn:V; intros H; [ | discriminate H].
  injection H as <-. apply validate_level_Valid in V.
  unfold normalize in *.
  rewrite StrFacts.normalize_after_pydantic_strip in V. exact V.
Qed.

Lemma validate_str_param_inv (M : BaseModel) (name s v : string) :
  str_strip_whitespace M = true ->
  str_field M = Some (name, validate_param) ->
  validate_str M s = (v, []) ->
  v = normalize s /\ In v ["freq"; "amp"; "res"].
Proof.
  intros E1 E2. unfold validate_str. rewrite E2, E1.
  destruct (validate_param _) as [v' | msg] eqn:V; intros H; [ | discriminate H].
  injection H as <-. apply validate_param_Valid in V.
  unfold normalize in *.
  rewrite StrFacts.normalize_after_pydantic_strip in V. exact V.
Qed.

Lemma behaves_send_by_key (d : dict string) (ks : list string) (v : string) (x : float) :
  keyed d ks -> In v ks ->
  exists address,
    dict_get d v = Some address
    /\ behaves (send_by_key d {| str_value := v; float_value := x |}) (Send address x).
Proof.
  intros K H. destruct (K v H) as [address E].
  exists address. split; [exact E | ].
  pose proof (behaves_getitem_send d v x) as B. rewrite E in B. exact B.
Qed.

Lemma behaves_errors (errors : list ErrorDetails) (f : Py JsonText) :
  errors <> [] ->
  behaves (match errors with
           | [] => f
           | e0 :: l => raise (ValidationError (e0 :: l))
           end)
          (Pure (Raise (ValidationError errors))).
Proof. destruct errors; [congruence | ]. intros _. apply behaves_raise. Qed.

Lemma call_tool_does (t : Tool) (a : Arguments) : Does t a.
Proof.
  destruct (is_registry_tool t) eqn:Ht.
  - destruct (registry_shape t Ht)
      as [M address R E B | M name d R S E N K B | M name d R S E N K B | -> | ->].
    + destruct (model_validate_cases M (arg_str a) (arg_float a))
        as [[v [V [F I]]] | [errors [Hne I]]].
      * apply (does_send t a address). intro w.
        unfold call_tool. rewrite R. cbn [call]. rewrite I. reflexivity.
      * apply (does_reject t a errors Hne). intro w.
        unfold call_tool. rewrite R. cbn [call]. rewrite I. reflexivity.
    + destruct (model_validate_cases M (arg_str a) (arg_float a))
        as [[v [V [F I]]] | [errors [Hne I]]].
      * destruct (validate_str_level_inv M name _ _ S E V) as [_ Hin].
        destruct (behaves_send_by_key d _ v (arg_float a) K Hin) as [address [_ Bh]].
        apply (does_send t a address). intro w.
        unfold call_tool. rewrite R. cbn [call]. rewrite I. apply Bh.
      * apply (does_reject t a errors Hne). intro w.
        unfold call_tool. rewrite R. cbn [call]. rewrite I. reflexivity.
    + destruct (model_validate_cases M (arg_str a) (arg_float a))
        as [[v [V [F I]]] | [errors [Hne I]]].
      * destruct (validate_str_param_inv M name _ _ S E V) as [_ Hin].
        destruct (behaves_send_by_key d _ v (arg_float a) K Hin) as [address [_ Bh]].
        apply (does_send t a address). intro w.
        unfold call_tool. rewrite R. cbn [call]. rewrite I. apply Bh.
      * apply (does_reject t a errors Hne). intro w.
        unfold call_tool. rewrite R. cbn [call]. rewrite I. reflexivity.
    + destruct (validate_int "cube" {| int_ge := Some 1%Z; int_le := Some 3%Z |}
                  (arg_int a)
                ++ validate_float "state" {| ge := Some 0.0%float; le := Some 1.0%float |}
                     (arg_float a)) as [ | e l] eqn:E.
      * eapply does_send. unfold call_tool; cbn [registry call]. rewrite E.
        apply behaves_send.
      * apply (does_reject _ _ (e :: l)); [discriminate | ].
        unfold call_tool; cbn [registry call]. rewrite E. apply behaves_raise.
    + destruct (validate_float "state" {| ge := Some 0.0%float; le := Some 1.0%float |}
                  (arg_float a)) as [ | e l] eqn:E.
      * destruct (negb (dict_contains
                          [("freq", "/polynodes/isomfreqsw");
                           ("amp", "/polynodes/isomampsw");
                           ("res", "/polynodes/isomressw")]
                          (normalize (arg_str a)))) eqn:C.
        -- eapply does_answer; [ | unfold call_tool; cbn [registry call]; rewrite E;
                                   unfold polynodes_isomorph_mod_switch;
                                   fold (normalize (arg_str a)); rewrite C;
                                   apply behaves_ret ].
           intros address v H. discriminate H.
        -- apply negb_false_iff in C. unfold dict_contains in C.
           destruct (dict_get _ (normalize (arg_str a))) as [address | ] eqn:G;
             [ | discriminate C].
           apply (does_send _ _ address).
           unfold call_tool; cbn [registry call]. rewrite E.
           unfold polynodes_isomorph_mod_switch. fold (normalize (arg_str a)).
           unfold dict_contains. rewrite G. cbn [negb].
           pose proof (behaves_getitem_send
                         [("freq", "/polynodes/isomfreqsw");
                          ("amp", "/polynodes/isomampsw");
                          ("res", "/polynodes/isomressw")]
                         (normalize (arg_str a)) (arg_float a)) as Bh.
           rewrite G in Bh. exact Bh.
      * apply (does_reject _ _ (e :: l)); [discriminate | ].
        unfold call_tool; cbn [registry call]. rewrite E. apply behaves_raise.
  - destruct t; try discriminate Ht.
    + eapply does_answer; [ | apply behaves_ret]. intros address v H. discriminate H.
    + eapply does_send. apply behaves_send.
Qed.




(** X7. The result of a call does not depend on the process it is made
    in: neither on the client nor on what was sent before. *)
Theorem result_independent_of_process (t : Tool) (a : Arguments) (w w' : Process) :
  fst (call_tool t a w) = fst (call_tool t a w').
Proof.
  destruct (call_tool_does t a) as [address B | errors Hne B | j N B];
    rewrite (B w), (B w'); unfold exec; try reflexivity.
  rewrite !_send_osc_run. reflexivity.
Qed.







(** ** Sequences of calls *)

Lemma step_cases (w : Process) (c : Tool * Arguments) :
  (step w c = w /\ forall k, emitted k c = [])
  \/ (exists address,
        step w c = after_send address (arg_float (snd c)) w
        /\ forall k, emitted k c
                     = [{| dest_host := _address k; dest_port := _port k;
                           osc_address := address;
                           osc_value := arg_float (snd c) |}]).
Proof.
  unfold emitted, step.
  destruct (call_tool_does (fst c) (snd c)) as [address B | errors Hne B | j N B];
    rewrite (B w), (B initial); unfold exec.
  - right. exists address. rewrite !_send_osc_run. split; reflexivity.
  - left. split; reflexivity.
  - left. split; reflexivity.
Qed.

Lemma client_after_after_send (address : string) (v : float) (w : Process) :
  client_after (after_send address v w) = client_after w.
Proof. reflexivity. Qed.

Lemma run_trace (calls : list (Tool * Arguments)) (w : Process) :
  wire (run calls w) = wire w ++ flat_map (emitted (client_after w)) calls
  /\ (_osc_client (run calls w) = _osc_client w
      \/ _osc_client (run calls w) = Some (client_after w)).
Proof.
  revert w. induction calls as [ | c r IH]; intros w; simpl.
  - rewrite app_nil_r. auto.
  - destruct (step_cases w c) as [[E Em] | [address [E Em]]]; rewrite E, Em.
    + apply IH.
    + destruct (IH (after_send address (arg_float (snd c)) w)) as [W C].
      rewrite client_after_after_send in W, C.
      split.
      * rewrite W. simpl. rewrite <- app_assoc. reflexivity.
      * right. destruct C as [C | C]; rewrite C; reflexivity.
Qed.

(** X8. The datagrams on the wire after a sequence of calls are those
    there before, followed by what each call emits on its own, in call
    order, all addressed to the one client; a call adds at most one. *)
Theorem wire_is_concatenation_in_call_order
  (before after : list (Tool * Arguments)) (w : Process) :
  wire (run (before ++ after) w)
  = wire w
    ++ flat_map (emitted (client_after w)) before
    ++ flat_map (emitted (client_after w)) after
  /\ length (wire (run (before ++ after) w))
     <= length (wire w) + length before + length after.
Proof.
  destruct (run_trace (before ++ after) w) as [W _].
  rewrite flat_map_app in W. split; [exact W | ].
  rewrite W, !length_app.
  assert (L : forall l, length (flat_map (emitted (client_after w)) l) <= length l).
  { induction l as [ | c r IH]; simpl; [lia | ].
    rewrite length_app.
    destruct (step_cases initial c) as [[_ Em] | [address [_ Em]]];
      rewrite Em; simpl; lia. }
  pose proof (L before). pose proof (L after). lia.
Qed.

(** X9. Once a client exists, whatever its destination, no sequence of
    calls replaces it, and every datagram added goes to its destination. *)
Theorem client_never_replaced (c : SimpleUDPClient) (calls : list (Tool * Arguments))
  (w : Process) :
  _osc_client w = Some c ->
  _osc_client (run calls w) = Some c
  /\ exists ds,
       wire (run calls w) = wire w ++ ds
       /\ Forall (fun d => dest_host d = _address c /\ dest_port d = _port c) ds.
Proof.
  intros E.
  assert (Ec : client_after w = c) by (unfold client_after; rewrite E; reflexivity).
  destruct (run_trace calls w) as [W C]. rewrite Ec in W, C.
  split.
  - destruct C as [C | C]; rewrite C; [exact E | reflexivity].
  - eexists. split; [exact W | ].
    apply Forall_flat_map. apply Forall_forall. intros call _.
    unfold emitted. apply Forall_map. apply Forall_forall. intros d _.
    split; reflexivity.
Qed.

Lemma client_never_replaced_witness :
  let c := {| _address := "10.0.0.7"; _port := 9000 |} in
  let calls :=
    [(play_stop, {| arg_str := ""; arg_int := 0; arg_float := 1.0%float |});
     (set_gain, {| arg_str := "giant"; arg_int := 0; arg_float := 1.0%float |});
     (play_stop, {| arg_str := ""; arg_int := 0; arg_float := 0.0%float |})] in
  let w := snd (_get_client "10.0.0.7" 9000 initial) in
  _osc_client (run calls w) = Some c
  /\ exists ds,
       wire (run calls w) = wire w ++ ds
       /\ Forall (fun d => dest_host d = _address c /\ dest_port d = _port c) ds.
Proof.
  intros c calls w. exact (client_never_replaced c calls w eq_refl).
Defined.

(** X10. Every accepted call of a registry tool is the raw send of the
    resolved address with the same value: same result, same process. *)
Theorem raw_send_subsumes_tools (t : Tool) (a : Arguments) (w : Process) :
  is_registry_tool t = true -> scope_valid t a -> in_range t (arg_float a) ->
  exists address,
    resolve t (key_for t a) = Some address
    /\ call_tool t a w = call_tool send_raw_osc (with_scope a address) w.
Proof.
  intros Ht Hs Hx. destruct (call_valid t a Ht Hs Hx) as [address [R B]].
  exists address. split; [exact R | ]. rewrite (B w). reflexivity.
Qed.

Lemma raw_send_subsumes_tools_witness :
  exists address,
    resolve set_filter_freq (key_str "meso") = Some address
    /\ call_tool set_filter_freq
         {| arg_str := "MESO"; arg_int := 0; arg_float := 440.0%float |} initial
       = call_tool send_raw_osc
           {| arg_str := address; arg_int := 0; arg_float := 440.0%float |} initial.
Proof.
  apply (raw_send_subsumes_tools set_filter_freq
           {| arg_str := "MESO"; arg_int := 0; arg_float := 440.0%float |} initial eq_refl).
  - vm_compute. auto.
  - vm_compute. auto.
Defined.

(** X3. For a tool with a scope parameter and a valid scope, the spelling
    of the scope string is immaterial: the call with the raw string and the
    call with its normal form give the same result and the same process,
    whether the value is accepted or rejected. *)
Theorem scope_spelling_is_immaterial (t : Tool) (sc : ScopeSet) (a : Arguments)
  (w : Process) :
  scope_parameter t = Some sc -> scope_valid t a ->
  call_tool t (with_scope a (normalize (arg_str a))) w = call_tool t a w.
Proof.
  intros E Hs.
  assert (Ht : is_registry_tool t = true).
  { destruct t; try reflexivity; vm_compute in E; discriminate E. }
  assert (Hs' : scope_valid t (with_scope a (normalize (arg_str a)))).
  { unfold scope_valid in *. rewrite E in *.
    destruct sc; unfold key_of in *; cbn [with_scope arg_str arg_int];
      try rewrite NormFacts.normalize_idempotent; exact Hs. }
  unfold call_tool.
  destruct (registry_shape t Ht)
    as [M address R F B | M name d R S F N K B | M name d R S F N K B | -> | ->].
  - unfold scope_parameter in E. rewrite R, F in E. discriminate E.
  - rewrite R. cbn [call]. unfold model_validate.
    unfold scope_valid, scope_parameter in Hs, Hs'. rewrite R, F, N in Hs, Hs'.
    apply In_keys_str in Hs, Hs'.
    rewrite (validate_str_level M name _ S F Hs).
    rewrite (validate_str_level M name _ S F Hs').
    cbn [with_scope arg_str arg_float].
    rewrite NormFacts.normalize_idempotent. reflexivity.
  - rewrite R. cbn [call]. unfold model_validate.
    unfold scope_valid, scope_parameter in Hs, Hs'. rewrite R, F, N in Hs, Hs'.
    apply In_keys_str in Hs, Hs'.
    rewrite (validate_str_param M name _ S F Hs).
    rewrite (validate_str_param M name _ S F Hs').
    cbn [with_scope arg_str arg_float].
    rewrite NormFacts.normalize_idempotent. reflexivity.
  - reflexivity.
  - cbn [registry call with_scope arg_str arg_float].
    unfold polynodes_isomorph_mod_switch.
    fold (normalize (normalize (arg_str a))).
    rewrite NormFacts.normalize_idempotent. reflexivity.
Qed.

Lemma scope_spelling_is_immaterial_witness :
  call_tool blackhole_force
    {| arg_str := "macro"; arg_int := 0; arg_float := 0.5%float |} initial
  = call_tool blackhole_force
      {| arg_str := "  MaCrO "; arg_int := 0; arg_float := 0.5%float |} initial.
Proof.
  apply (scope_spelling_is_immaterial blackhole_force Levels
           {| arg_str := "  MaCrO "; arg_int := 0; arg_float := 0.5%float |}
           initial eq_refl).
  vm_compute. auto.
Defined.
